(** * The LUIS provider of botpress-nlu: sync and training orchestration

    A shallow embedding of [src/providers/luis.js].  The provider is a
    class whose methods are [async]; every [await] is sequential, so a
    run is a deterministic state transformer once the answers of the
    outside world (the HTTP endpoints of the hosted service) are fixed.

    - JavaScript values are typed records; a property that may be
      [undefined] is an [option].
    - The key-value store [this.kvs] is a [gmap string Metadata], the
      entity table [Entities] a [gmap string Entity].
    - Effects (requests, store accesses, log lines, thrown errors) are
      threaded through a state-and-exception monad [M]; the [while (true)]
      loop of [train] takes fuel, and running out of it is the third
      outcome [Diverge]. *)

From Stdlib Require Import String Ascii ZArith QArith Lia Bool.
From stdpp Require Import base option list gmap strings fin_maps.

#[local] Set Warnings "-clear-no-such-hyp".

Local Open Scope string_scope.
Local Open Scope list_scope.

(** ** JavaScript values *)

(** The double quote character, used inside template literals. *)
Definition dquote : string :=
  String (Ascii false true false false false true false false) EmptyString.

(** String conversion of a possibly [undefined] string, as done by [+]
    and by template literals. *)
Definition str (v : option string) : string := default "undefined" v.

(** A string is truthy unless it is empty. *)
Definition truthy_string (s : string) : bool :=
  match s with EmptyString => false | String _ _ => true end.

(** [a || b] where [a] is a string. *)
Definition js_or (a b : string) : string := if truthy_string a then a else b.

(** Thrown values.  [response_detail] is what
    [_.get(err, 'response.data.error.message')] finds in the error. *)
Record JsError := { message : string; response_detail : option string }.

Definition new_Error (msg : string) : JsError :=
  {| message := msg; response_detail := None |}.

(** Reading property [prop] of [undefined]. *)
Definition TypeError (prop : string) : JsError :=
  new_Error ("Cannot read property '" +:+ prop +:+ "' of undefined").

(** Numbers that arise as the progress ratio: a quotient of two array
    lengths, or [NaN] for [0 / 0]. *)
Inductive Number := NaN | Num (q : Q).

(** [p >= 1]; every comparison with [NaN] is false. *)
Definition ge1 (p : Number) : bool :=
  match p with NaN => false | Num q => Qle_bool 1 q end.

(** [Array.prototype.indexOf]: position of the first element strictly
    equal to [x], or [-1]. *)
Fixpoint indexOf (l : list string) (x : string) : Z :=
  match l with
  | [] => -1
  | y :: l' =>
      if bool_decide (y = x) then 0
      else let i := indexOf l' x in if (i =? -1)%Z then (-1)%Z else (i + 1)%Z
  end.

(** ** Data *)

Definition LUIS_APP_VERSION : string := "1.0".
Definition LUIS_HASH_KVS_KEY : string := "nlu/luis/updateMetadata".

(** A label returned by the canonical parser. *)
Record Label := { type : string; start : Z; end_ : Z }.
Record Extracted := { ex_text : string; labels : list Label }.

(** An entry of the [Entities] table; [luis] is its ['@luis'] property. *)
Record Entity := { luis : option string }.

Record LuisLabel := { entity : string; startPos : Z; endPos : Z }.
Record LuisUtterance :=
  { text : string; intent : string; u_entities : list LuisLabel }.

Record AppInfo :=
  { app_name : option string; description : option string;
    app_culture : option string }.

(** The body of the import request. *)
Record Body :=
  { luis_schema_version : string;
    versionId : string;
    b_name : option string;
    desc : option string;
    culture : option string;
    b_intents : list string;
    b_entities : list string;
    composites : list string;
    closedLists : list string;
    bing_entities : list string;
    model_features : list string;
    regex_features : list string;
    b_utterances : list LuisUtterance }.

(** An element of the version list of the application. *)
Record VersionInfo :=
  { version : string; lastModifiedDateTime : option string }.

(** What [getRemoteVersion] returns: [_.find] gives the matching element
    or [undefined]; the [catch] branch gives the empty array. *)
Inductive RemoteVersion :=
| Undefined
| EmptyArray
| Found (v : VersionInfo).

Definition truthy (v : RemoteVersion) : bool :=
  match v with Undefined => false | EmptyArray | Found _ => true end.

(** The value stored under [LUIS_HASH_KVS_KEY]. *)
Record Metadata := { hash : string; time : option string }.

(** Training status of one model, as read by [train]. *)
Record Details := { d_status : option string; failureReason : option string }.
Record Submodel :=
  { modelId : string; status : option string; details : option Details }.
Record TrainStart := { ts_status : option string }.

(** ** Results of pure code that may throw *)

Inductive Result (A : Type) := Val (a : A) | Err (e : JsError).
Arguments Val {A} a.
Arguments Err {A} e.

Definition rbind {A B} (r : Result A) (k : A → Result B) : Result B :=
  match r with Val a => k a | Err e => Err e end.

(** [l.forEach(x => ...)] over a body that updates the captured
    variables [S] and may throw. *)
Fixpoint forEach {A S} (f : A → S → Result S) (l : list A) (s : S) : Result S :=
  match l with
  | [] => Val s
  | x :: l' => rbind (f x s) (forEach f l')
  end.

(** [remoteVersion.lastModifiedDateTime]. *)
Definition get_lastModifiedDateTime (v : RemoteVersion) : Result (option string) :=
  match v with
  | Undefined => Err (TypeError "lastModifiedDateTime")
  | EmptyArray => Val None
  | Found d => Val (lastModifiedDateTime d)
  end.

(** ** The outside world and the state of a run *)

Inductive Http (A : Type) := Response (data : A) | Rejected (err : JsError).
Arguments Response {A} data.
Arguments Rejected {A} err.

(** Answers of the hosted service.  [versions k] answers the [k]-th
    version lookup of a run, [trainStatus i] the [i]-th poll. *)
Record Service :=
  { versions : nat → Http (list VersionInfo);
    delete_ : Http (option Z);
    appInfo : Http AppInfo;
    import_ : Body → Http string;
    trainStart : Http TrainStart;
    trainStatus : nat → Http (list Submodel);
    publish : Http unit }.

Definition answered {A} (r : Http A) : bool :=
  match r with Response _ => true | Rejected _ => false end.

Inductive Call :=
| GetVersions
| DeleteVersion
| GetAppInfo
| ImportVersion (body : Body)
| StartTraining
| PollTraining
| Publish (isStaging : bool)
| KvsGet (key : string)
| KvsSet (key : string) (value : Metadata).

Record Event := { call : Call; ok : bool }.

Inductive Level := Debug | Info | Error.
Record LogEntry := { level : Level; msg : string }.

Record State :=
  { kvs : gmap string Metadata; trace : list Event; log : list LogEntry }.

Definition emit (e : Event) (st : State) : State :=
  {| kvs := kvs st; trace := trace st ++ [e]; log := log st |}.

(** ** The monad of [async] methods *)

Inductive Outcome (A : Type) := Ret (a : A) | Throw (e : JsError) | Diverge.
Arguments Ret {A} a.
Arguments Throw {A} e.
Arguments Diverge {A}.

Definition M (A : Type) : Type := State → Outcome A * State.

Definition ret {A} (a : A) : M A := λ st, (Ret a, st).
Definition throw {A} (e : JsError) : M A := λ st, (Throw e, st).
Definition diverge {A} : M A := λ st, (Diverge, st).

Definition bind {A B} (m : M A) (k : A → M B) : M B :=
  λ st, match m st with
        | (Ret a, st') => k a st'
        | (Throw e, st') => (Throw e, st')
        | (Diverge, st') => (Diverge, st')
        end.

(** [try { m } catch (err) { h err }]. *)
Definition try_catch {A} (m : M A) (h : JsError → M A) : M A :=
  λ st, match m st with
        | (Throw e, st') => h e st'
        | r => r
        end.

Definition lift {A} (r : Result A) : M A :=
  match r with Val a => ret a | Err e => throw e end.

Declare Scope M_scope.
Notation "'let!' x ':=' m 'in' k" := (bind m (λ x, k))
  (at level 10, x pattern, m at level 100, k at level 200) : M_scope.
Notation "m '>>>' k" := (bind m (λ _, k))
  (at level 80, right associativity) : M_scope.
Delimit Scope M_scope with M.
Local Open Scope M_scope.

(** An [axios] request: recorded in the trace, resolved or rejected by
    the provider. *)
Definition request {A} (c : Call) (r : Http A) : M A :=
  λ st, match r with
        | Response d => (Ret d, emit {| call := c; ok := true |} st)
        | Rejected e => (Throw e, emit {| call := c; ok := false |} st)
        end.

Definition logger (l : Level) (s : string) : M unit :=
  λ st, (Ret tt,
         {| kvs := kvs st; trace := trace st;
            log := log st ++ [{| level := l; msg := s |}] |}).

Definition kvs_get (key : string) : M (option Metadata) :=
  λ st, (Ret (kvs st !! key), emit {| call := KvsGet key; ok := true |} st).

Definition kvs_set (key : string) (value : Metadata) : M unit :=
  λ st, (Ret tt,
         {| kvs := <[key := value]> (kvs st);
            trace := trace st ++ [{| call := KvsSet key value; ok := true |}];
            log := log st |}).

(** ** The provider *)

Section LuisProvider.

(** Entity declarations of an intent are only handed to the parser. *)
Context {EntityDeclaration : Type}.

Record Intent :=
  { name : string; utterances : list string;
    entities : list EntityDeclaration }.

(** An instance of the class together with what it imports: the fields
    [appId] and [isProduction], [this.parser.extractLabelsFromCanonical],
    the table exported by [./entities], the MD5 digest (in hexadecimal) of
    [JSON.stringify(localIntents)], the conversion of
    [percent.toFixed(2) * 100] to a string, and the answers of the hosted
    service during the run. *)
Record LuisProvider :=
  { appId : string;
    isProduction : bool;
    extractLabelsFromCanonical : string → list EntityDeclaration → Extracted;
    Entities : gmap string Entity;
    md5_hex : list Intent → string;
    showPercent : Number → string;
    service : Service }.

Context (this : LuisProvider).

(** *** getRemoteVersion *)

Definition find_version (l : list VersionInfo) : RemoteVersion :=
  match List.find (λ v, bool_decide (version v = LUIS_APP_VERSION)) l with
  | Some v => Found v
  | None => Undefined
  end.

Definition getRemoteVersion (k : nat) : M RemoteVersion :=
  try_catch
    (let! res := request GetVersions (versions (service this) k) in
     ret (find_version res))
    (λ _, logger Debug "[NLU::Luis] Could not fetch app versions" >>>
          ret EmptyArray).

(** *** deleteVersion *)

Definition deleteVersion : M unit :=
  try_catch
    (let! del := request DeleteVersion (delete_ (service this)) in
     if bool_decide (del = Some 200%Z)
     then logger Debug "[NLU::Luis] Removed old version of the model"
     else ret tt)
    (λ _, logger Debug "[NLU::Luis] Could not remove old version of the model").

(** *** getAppInfo *)

Definition getAppInfo : M AppInfo :=
  try_catch
    (request GetAppInfo (appInfo (service this)))
    (λ _, throw (new_Error ("[NLU::Luis] Could not find app " +:+ appId this))).

(** *** isInSync

    The value of [a && b && c] is only tested for truthiness; [&&]
    evaluates its right operand only when the left one is truthy. *)

Definition isInSync (localIntents : list Intent) (remoteVersion : RemoteVersion)
  : M bool :=
  let intentsHash := md5_hex this localIntents in
  let! metadata := kvs_get LUIS_HASH_KVS_KEY in
  match metadata with
  | None => ret false
  | Some metadata =>
      if bool_decide (hash metadata = intentsHash) then
        let! t := lift (get_lastModifiedDateTime remoteVersion) in
        ret (bool_decide (time metadata = t))
      else ret false
  end.

(** *** onSyncSuccess *)

Definition onSyncSuccess (localIntents : list Intent)
    (remoteVersion : RemoteVersion) : M unit :=
  let intentsHash := md5_hex this localIntents in
  let! t := lift (get_lastModifiedDateTime remoteVersion) in
  kvs_set LUIS_HASH_KVS_KEY {| hash := intentsHash; time := t |}.

(** *** Construction of the utterances (the nested [forEach] of [sync]) *)

Definition unknown_entity (ty : string) : JsError :=
  new_Error ("[NLU::Luis] Unknown entity: " +:+ ty +:+
             ". Botpress NLU only supports native entities for now.").

Definition unsupported_entity (ty : string) : JsError :=
  new_Error ("[NLU::Luis] LUIS doesn't support entity of type " +:+ ty).

(** Body of [extracted.labels.forEach]; it updates [builtinEntities]
    (shared by the whole traversal) and [entities] (of the utterance). *)
Definition onLabel (label : Label) (s : list string * list LuisLabel)
  : Result (list string * list LuisLabel) :=
  let '(builtinEntities, entities) := s in
  match Entities this !! type label with
  | None => Err (unknown_entity (type label))
  | Some entity =>
      if negb (String.prefix "@native." (type label))
      then Err (unknown_entity (type label))
      else
        match luis entity with
        | None => Err (unsupported_entity (type label))
        | Some l =>
            if negb (truthy_string l)
            then Err (unsupported_entity (type label))
            else
              let builtinEntities :=
                if (indexOf builtinEntities l =? -1)%Z
                then builtinEntities ++ [l] else builtinEntities in
              Val (builtinEntities,
                   entities ++ [{| entity := l; startPos := start label;
                                   endPos := end_ label |}])
        end
  end.

(** Body of [intent.utterances.forEach]. *)
Definition onUtterance (i : Intent) (utterance : string)
    (s : list LuisUtterance * list string)
  : Result (list LuisUtterance * list string) :=
  let '(utterances, builtinEntities) := s in
  let extracted := extractLabelsFromCanonical this utterance (entities i) in
  rbind (forEach onLabel (labels extracted) (builtinEntities, []))
    (λ '(builtinEntities, entities),
       Val (utterances ++ [{| text := ex_text extracted; intent := name i;
                              u_entities := entities |}],
            builtinEntities)).

(** Body of [intents.forEach]. *)
Definition onIntent (i : Intent) (s : list LuisUtterance * list string)
  : Result (list LuisUtterance * list string) :=
  forEach (onUtterance i) (utterances i) s.

Definition buildUtterances (intents : list Intent)
  : Result (list LuisUtterance * list string) :=
  forEach onIntent intents ([], []).

Definition mkBody (info : AppInfo) (intents : list Intent)
    (utterances : list LuisUtterance) (builtinEntities : list string) : Body :=
  {| luis_schema_version := "2.1.0";
     versionId := LUIS_APP_VERSION;
     b_name := app_name info;
     desc := description info;
     culture := app_culture info;
     b_intents := map name intents;
     b_entities := [];
     composites := [];
     closedLists := [];
     bing_entities := builtinEntities;
     model_features := [];
     regex_features := [];
     b_utterances := utterances |}.

(** *** train *)

(** [_.filter(models, m => m.details.status === 'InProgress')]. *)
Fixpoint filterInProgress (models : list Submodel) : Result (list Submodel) :=
  match models with
  | [] => Val []
  | m :: ms =>
      match details m with
      | None => Err (TypeError "status")
      | Some d =>
          rbind (filterInProgress ms)
            (λ rest, Val (if bool_decide (d_status d = Some "InProgress")
                          then m :: rest else rest))
      end
  end.

(** [_.find(models, { status: 'Fail' })]. *)
Definition findFail (models : list Submodel) : option Submodel :=
  List.find (λ m, bool_decide (status m = Some "Fail")) models.

(** [(models.length - inProgress.length) / models.length]. *)
Definition ratio (total inProgress : nat) : Number :=
  if Nat.eqb total 0 then NaN
  else Num (Z.of_nat (total - inProgress) # Pos.of_nat total).

Definition training_error (error : Submodel) (d : Details) : JsError :=
  new_Error ("[NLU::Luis] Error training model " +:+ dquote +:+ modelId error
             +:+ dquote +:+ ", reason is " +:+ dquote
             +:+ str (failureReason d) +:+ dquote).

Inductive LoopCtl := Break | Continue.

(** One iteration of the [while (true)] loop, up to the delay. *)
Definition poll (i : nat) : M LoopCtl :=
  let! models := request PollTraining (trainStatus (service this) i) in
  let! inProgress := lift (filterInProgress models) in
  let percent := ratio (length models) (length inProgress) in
  match findFail models with
  | Some error =>
      match details error with
      | None => throw (TypeError "failureReason")
      | Some d => throw (training_error error d)
      end
  | None =>
      if ge1 percent
      then logger Debug "[NLU::Luis] Model trained (100%)" >>> ret Break
      else logger Debug ("[NLU::Luis] Training... " +:+ showPercent this percent
                         +:+ "%") >>> ret Continue
  end.

Fixpoint pollLoop (fuel i : nat) : M unit :=
  match fuel with
  | O => diverge
  | S fuel' =>
      let! c := poll i in
      match c with
      | Break => ret tt
      | Continue => pollLoop fuel' (S i)
      end
  end.

Definition train (fuel : nat) : M unit :=
  let! res := request StartTraining (trainStart (service this)) in
  if negb (bool_decide (ts_status res = Some "Queued"))
  then throw (new_Error ("Expected training to be Queued but was: "
                         +:+ str (ts_status res)))
  else
    pollLoop fuel 0 >>>
    let! _ := request (Publish (negb (isProduction this))) (publish (service this)) in
    ret tt.

(** *** sync *)

(** The argument of [this.logger.error] in the [catch] of [sync]:
    [+] binds tighter than [||]. *)
Definition sync_error_message (err : JsError) : string :=
  let detailedError := response_detail err in
  js_or ("[NLU::Luis] Could not sync the model. Error = " +:+ str detailedError)
        (message err).

(** [intents] is the result of [this.storage.getIntents()]. *)
Definition sync (intents : list Intent) (fuel : nat) : M unit :=
  let! currentVersion := getRemoteVersion 0 in
  let! inSync := isInSync intents currentVersion in
  if inSync
  then logger Debug "[NLU::Luis] Model is up to date"
  else
    logger Debug "[NLU::Luis] The model needs to be updated" >>>
    (if truthy currentVersion
     then logger Debug "[NLU::Luis] Deleting old version of the model" >>>
          deleteVersion
     else ret tt) >>>
    let! (utterances, builtinEntities) := lift (buildUtterances intents) in
    let! info := getAppInfo in
    let body := mkBody info intents utterances builtinEntities in
    try_catch
      (let! result := request (ImportVersion body) (import_ (service this) body) in
       train fuel >>>
       let! currentVersion := getRemoteVersion 1 in
       onSyncSuccess intents currentVersion >>>
       logger Info ("[NLU::Luis] Synced model [" +:+ result +:+ "]"))
      (λ err, logger Error (sync_error_message err)).

(** *** Vocabulary of the statements *)

(** The labels of a corpus, in the order in which [sync] visits them. *)
Definition corpusLabels (intents : list Intent) : list Label :=
  i ← intents; u ← utterances i;
  labels (extractLabelsFromCanonical this u (entities i)).

(** The two guards of [onLabel], which do not depend on the accumulators:
    the provider name of an accepted label, or the error thrown. *)
Definition checkLabel (label : Label) : Result string :=
  match Entities this !! type label with
  | None => Err (unknown_entity (type label))
  | Some entity =>
      if negb (String.prefix "@native." (type label))
      then Err (unknown_entity (type label))
      else
        match luis entity with
        | None => Err (unsupported_entity (type label))
        | Some l =>
            if negb (truthy_string l)
            then Err (unsupported_entity (type label))
            else Val l
        end
  end.

(** The error of the first label that fails [checkLabel]. *)
Fixpoint firstRejection (ls : list Label) : option JsError :=
  match ls with
  | [] => None
  | l :: ls' =>
      match checkLabel l with
      | Err e => Some e
      | Val _ => firstRejection ls'
      end
  end.

(** A label whose type is not a key of the table. *)
Definition unknown_to_registry (label : Label) : Prop :=
  Entities this !! type label = None.

(** A label whose entity has no truthy ['@luis'] name. *)
Definition unsupported_by_provider (label : Label) : Prop :=
  ∃ e, Entities this !! type label = Some e ∧
       (luis e = None ∨ luis e = Some "").

(** A run of [sync] from a given content of the store. *)
Definition initial (store : gmap string Metadata) : State :=
  {| kvs := store; trace := []; log := [] |}.

(** The requests that [train] makes. *)
Definition training_call (e : Event) : Prop :=
  call e = StartTraining ∨ call e = PollTraining ∨
  call e = Publish (negb (isProduction this)).

(** The requests and store accesses that [sync] makes before importing. *)
Definition prelude_call (e : Event) : Prop :=
  call e = GetVersions ∨ call e = KvsGet LUIS_HASH_KVS_KEY ∨
  call e = DeleteVersion ∨ call e = GetAppInfo.

Definition run_sync (intents : list Intent) (fuel : nat)
    (store : gmap string Metadata) : Outcome unit * State :=
  sync intents fuel (initial store).

(** The value that the [k]-th call of [getRemoteVersion] returns. *)
Definition remoteVersion (k : nat) : RemoteVersion :=
  match versions (service this) k with
  | Response vs => find_version vs
  | Rejected _ => EmptyArray
  end.

(** What [isInSync] makes of the first version lookup and of a store. *)
Definition decision (intents : list Intent) (store : gmap string Metadata)
  : Outcome bool :=
  (isInSync intents (remoteVersion 0) (initial store)).1.

(** The requests and store accesses up to the decision, and the request
    that follows it when the model has to be updated. *)
Definition checked : list Event :=
  [{| call := GetVersions; ok := answered (versions (service this) 0) |};
   {| call := KvsGet LUIS_HASH_KVS_KEY; ok := true |}].

Definition deleted : list Event :=
  if truthy (remoteVersion 0)
  then [{| call := DeleteVersion; ok := answered (delete_ (service this)) |}]
  else [].

(** The run reaches the import request, with [body] as payload. *)
Definition imports (intents : list Intent) (store : gmap string Metadata)
    (body : Body) : Prop :=
  decision intents store = Ret false ∧
  ∃ utterances builtinEntities info,
    buildUtterances intents = Val (utterances, builtinEntities) ∧
    appInfo (service this) = Response info ∧
    body = mkBody info intents utterances builtinEntities.

(** The import request was answered; [s0] is the state in which [train]
    is called. *)
Definition imported (intents : list Intent) (store : gmap string Metadata)
    (body : Body) (result : string) (s0 : State) : Prop :=
  imports intents store body ∧
  import_ (service this) body = Response result ∧
  kvs s0 = store ∧
  trace s0 = checked ++ deleted ++
             [{| call := GetAppInfo; ok := true |};
              {| call := ImportVersion body; ok := true |}].

(** The ways in which a run of [sync] from [initial store] can end:
    its outcome and its final state. *)
Inductive sync_run (intents : list Intent) (fuel : nat)
    (store : gmap string Metadata) : Outcome unit → State → Prop :=
| Run_up_to_date st :
    decision intents store = Ret true →
    kvs st = store →
    trace st = checked →
    last (log st) =
      Some {| level := Debug; msg := "[NLU::Luis] Model is up to date" |} →
    Forall (λ l, level l = Debug) (log st) →
    sync_run intents fuel store (Ret tt) st
| Run_check_failed st e :
    (* [isInSync] throws *)
    decision intents store = Throw e →
    kvs st = store →
    trace st = checked →
    Forall (λ l, level l = Debug) (log st) →
    sync_run intents fuel store (Throw e) st
| Run_construction_failed st e :
    (* a label is rejected; the error leaves [sync] *)
    decision intents store = Ret false →
    buildUtterances intents = Err e →
    kvs st = store →
    trace st = checked ++ deleted →
    Forall (λ l, level l = Debug) (log st) →
    sync_run intents fuel store (Throw e) st
| Run_app_not_found st r err :
    decision intents store = Ret false →
    buildUtterances intents = Val r →
    appInfo (service this) = Rejected err →
    kvs st = store →
    trace st = checked ++ deleted ++ [{| call := GetAppInfo; ok := false |}] →
    Forall (λ l, level l = Debug) (log st) →
    sync_run intents fuel store
      (Throw (new_Error ("[NLU::Luis] Could not find app " +:+ appId this))) st
| Run_import_rejected st body err :
    imports intents store body →
    import_ (service this) body = Rejected err →
    kvs st = store →
    trace st = checked ++ deleted ++
               [{| call := GetAppInfo; ok := true |};
                {| call := ImportVersion body; ok := false |}] →
    last (log st) = Some {| level := Error; msg := sync_error_message err |} →
    sync_run intents fuel store (Ret tt) st
| Run_training_failed st s0 body result err :
    imported intents store body result s0 →
    (train fuel s0).1 = Throw err →
    kvs st = store →
    trace st = trace (train fuel s0).2 →
    last (log st) = Some {| level := Error; msg := sync_error_message err |} →
    sync_run intents fuel store (Ret tt) st
| Run_training_diverged s0 body result :
    imported intents store body result s0 →
    (train fuel s0).1 = Diverge →
    sync_run intents fuel store Diverge (train fuel s0).2
| Run_record_failed st s0 body result :
    (* the version list no longer holds the version: [onSyncSuccess]
       throws before it reaches the store *)
    imported intents store body result s0 →
    (train fuel s0).1 = Ret tt →
    remoteVersion 1 = Undefined →
    kvs st = store →
    trace st = trace (train fuel s0).2 ++
               [{| call := GetVersions; ok := true |}] →
    last (log st) =
      Some {| level := Error;
              msg := sync_error_message (TypeError "lastModifiedDateTime") |} →
    sync_run intents fuel store (Ret tt) st
| Run_recorded st s0 body result t :
    imported intents store body result s0 →
    (train fuel s0).1 = Ret tt →
    get_lastModifiedDateTime (remoteVersion 1) = Val t →
    kvs st = <[LUIS_HASH_KVS_KEY :=
                 {| hash := md5_hex this intents; time := t |}]> store →
    trace st = trace (train fuel s0).2 ++
               [{| call := GetVersions;
                   ok := answered (versions (service this) 1) |};
                {| call := KvsSet LUIS_HASH_KVS_KEY
                             {| hash := md5_hex this intents; time := t |};
                   ok := true |}] →
    last (log st) =
      Some {| level := Info;
              msg := "[NLU::Luis] Synced model [" +:+ result +:+ "]" |} →
    sync_run intents fuel store (Ret tt) st.

End LuisProvider.

Arguments Intent : clear implicits.
Arguments LuisProvider : clear implicits.

(** The provider names referenced by the utterances of a payload, in
    order. *)
Definition referenced (us : list LuisUtterance) : list string :=
  u ← us; entity <$> u_entities u.

(** Each element once, at the place of its first occurrence. *)
Fixpoint first_appearances (l : list string) : list string :=
  match l with
  | [] => []
  | x :: l' => x :: filter (λ y, y ≠ x) (first_appearances l')
  end.

Definition is_KvsSet (e : Event) : bool :=
  match call e with KvsSet _ _ => true | _ => false end.
Definition is_ImportVersion (e : Event) : bool :=
  match call e with ImportVersion _ => true | _ => false end.
Definition is_PollTraining (e : Event) : bool :=
  match call e with PollTraining => true | _ => false end.
Definition is_Publish (e : Event) : bool :=
  match call e with Publish _ => true | _ => false end.
Definition is_StartTraining (e : Event) : bool :=
  match call e with StartTraining => true | _ => false end.
Definition is_DeleteVersion (e : Event) : bool :=
  match call e with DeleteVersion => true | _ => false end.

(** ** A small bot

    A corpus, an entity table and answers of the service on which the
    statements below are exercised. *)

(** The parser, on the utterances of the corpus. *)
Definition ex_parser (u : string) (_ : list unit) : Extracted :=
  if bool_decide (u = "mail me at a@b.c") then
    {| ex_text := u;
       labels := [{| type := "@native.email"; start := 11; end_ := 16 |}] |}
  else if bool_decide (u = "two to a@b.c, two") then
    {| ex_text := u;
       labels := [{| type := "@native.number"; start := 0; end_ := 3 |};
                  {| type := "@native.email"; start := 7; end_ := 12 |};
                  {| type := "@native.number"; start := 14; end_ := 17 |}] |}
  else if bool_decide (u = "paint it red") then
    {| ex_text := u;
       labels := [{| type := "color"; start := 9; end_ := 12 |}] |}
  else if bool_decide (u = "call Ann") then
    {| ex_text := u;
       labels := [{| type := "@native.person"; start := 5; end_ := 8 |}] |}
  else {| ex_text := u; labels := [] |}.

Definition ex_Entities : gmap string Entity :=
  <["@native.email" := {| luis := Some "email" |}]>
  (<["@native.number" := {| luis := Some "number" |}]>
  (<["@native.url" := {| luis := None |}]>
  (<["color" := {| luis := Some "color" |}]> ∅))).

(** A stand-in for the digest. *)
Definition ex_digest (l : list (Intent unit)) : string :=
  String.concat "|"
    (map (λ i, name i +:+ ":" +:+ String.concat "," (utterances i)) l).

Definition ex_greet : list (Intent unit) :=
  [{| name := "greet"; utterances := ["hi"; "hello"]; entities := [] |}].

Definition ex_contact : list (Intent unit) :=
  [{| name := "greet"; utterances := ["hi"]; entities := [] |};
   {| name := "contact";
      utterances := ["two to a@b.c, two"; "mail me at a@b.c"];
      entities := [] |}].

Definition ex_paint : list (Intent unit) :=
  [{| name := "paint"; utterances := ["hi"; "paint it red"]; entities := [] |}].

Definition ex_call : list (Intent unit) :=
  [{| name := "call"; utterances := ["call Ann"]; entities := [] |}].

Definition ex_model (s : string) (failure : option string) : Submodel :=
  {| modelId := "m1"; status := None;
     details := Some {| d_status := Some s; failureReason := failure |} |}.

(** First sync: no version yet, training takes three polls. *)
Definition ex_service : Service :=
  {| versions := λ k,
       if Nat.eqb k 0 then Response []
       else Response [{| version := "1.0";
                         lastModifiedDateTime := Some "2018-01-01" |}];
     delete_ := Response None;
     appInfo := Response {| app_name := Some "bot"; description := None;
                            app_culture := Some "en-us" |};
     import_ := λ _, Response "1.0";
     trainStart := Response {| ts_status := Some "Queued" |};
     trainStatus := λ i,
       if Nat.ltb i 2 then Response [ex_model "InProgress" None]
       else Response [ex_model "Success" None];
     publish := Response tt |}.

Definition ex_provider (svc : Service) : LuisProvider unit :=
  {| appId := "app"; isProduction := false;
     extractLabelsFromCanonical := ex_parser;
     Entities := ex_Entities;
     md5_hex := ex_digest;
     showPercent := λ _, "0";
     service := svc |}.

(** The version list is not served. *)
Definition ex_lookup_rejected : Service :=
  {| versions := λ _, Rejected (new_Error "Network Error");
     delete_ := delete_ ex_service; appInfo := appInfo ex_service;
     import_ := import_ ex_service; trainStart := trainStart ex_service;
     trainStatus := trainStatus ex_service; publish := publish ex_service |}.

(** The import is rejected without a structured error. *)
Definition ex_import_rejected : Service :=
  {| versions := versions ex_service;
     delete_ := delete_ ex_service; appInfo := appInfo ex_service;
     import_ := λ _, Rejected (new_Error "Network Error");
     trainStart := trainStart ex_service;
     trainStatus := trainStatus ex_service; publish := publish ex_service |}.

(** Training is reported as already running. *)
Definition ex_not_queued : Service :=
  {| versions := versions ex_service;
     delete_ := delete_ ex_service; appInfo := appInfo ex_service;
     import_ := import_ ex_service;
     trainStart := Response {| ts_status := Some "InProgress" |};
     trainStatus := trainStatus ex_service; publish := publish ex_service |}.

(** The only model fails to train. *)
Definition ex_training_fails : Service :=
  {| versions := versions ex_service;
     delete_ := delete_ ex_service; appInfo := appInfo ex_service;
     import_ := import_ ex_service; trainStart := trainStart ex_service;
     trainStatus := λ _, Response [ex_model "Fail" (Some "no examples")];
     publish := publish ex_service |}.


(** A store that holds the fingerprint of [ex_greet]. *)
Definition ex_store : gmap string Metadata :=
  {[ LUIS_HASH_KVS_KEY :=
       {| hash := ex_digest ex_greet; time := Some "2018-01-01" |} ]}.

(** The payloads built from [ex_greet] and [ex_contact]. *)
Definition ex_info : AppInfo :=
  {| app_name := Some "bot"; description := None;
     app_culture := Some "en-us" |}.

Definition ex_greet_body : Body :=
  mkBody ex_info ex_greet
    [{| text := "hi"; intent := "greet"; u_entities := [] |};
     {| text := "hello"; intent := "greet"; u_entities := [] |}]
    [].

Definition ex_contact_body : Body :=
  mkBody ex_info ex_contact
    [{| text := "hi"; intent := "greet"; u_entities := [] |};
     {| text := "two to a@b.c, two"; intent := "contact";
        u_entities := [{| entity := "number"; startPos := 0; endPos := 3 |};
                       {| entity := "email"; startPos := 7; endPos := 12 |};
                       {| entity := "number"; startPos := 14; endPos := 17 |}] |};
     {| text := "mail me at a@b.c"; intent := "contact";
        u_entities := [{| entity := "email"; startPos := 11; endPos := 16 |}] |}]
    ["number"; "email"].

(** ** Vocabulary of the further statements *)

Section Corpus.
Context {EntityDeclaration : Type} (this : LuisProvider EntityDeclaration).

(** The utterances of a corpus as the parser returns them, each with its
    intent, in the order in which [sync] visits them. *)
Definition corpusUtterances (intents : list (Intent EntityDeclaration))
  : list (Intent EntityDeclaration * Extracted) :=
  i ← intents; u ← utterances i;
  [(i, extractLabelsFromCanonical this u (entities i))].

(** A label that passes both guards of [onLabel]. *)
Definition accepted (label : Label) : Prop :=
  ∃ e n, Entities this !! type label = Some e ∧
         String.prefix "@native." (type label) = true ∧
         luis e = Some n ∧ n ≠ "".

(** A span of the payload stands for a label: the provider name of its
    entity, and its offsets. *)
Definition span_of (l : LuisLabel) (label : Label) : Prop :=
  (∃ e, Entities this !! type label = Some e ∧ luis e = Some (entity l)) ∧
  startPos l = start label ∧ endPos l = end_ label.

(** An utterance of the payload stands for an utterance of the corpus. *)
Definition utterance_of (u : LuisUtterance)
    (x : Intent EntityDeclaration * Extracted) : Prop :=
  text u = ex_text x.2 ∧ intent u = name x.1 ∧
  Forall2 span_of (u_entities u) (labels x.2).

End Corpus.

(** A model as the loop reads it: in progress, or failed. *)
Definition in_progress (m : Submodel) : Prop :=
  ∃ d, details m = Some d ∧ d_status d = Some "InProgress".

Definition failed (m : Submodel) : Prop := status m = Some "Fail".

(** The version is on the server and its timestamp is the one of
    [ex_store]. *)
Definition ex_synced : Service :=
  {| versions := λ _, Response [{| version := "0.1";
                                   lastModifiedDateTime := Some "2017-12-31" |};
                                {| version := "1.0";
                                   lastModifiedDateTime := Some "2018-01-01" |}];
     delete_ := delete_ ex_service; appInfo := appInfo ex_service;
     import_ := import_ ex_service; trainStart := trainStart ex_service;
     trainStatus := trainStatus ex_service; publish := publish ex_service |}.

(** The application is not found. *)
Definition ex_app_missing : Service :=
  {| versions := versions ex_synced;
     delete_ := Rejected (new_Error "Request failed with status code 400");
     appInfo := Rejected (new_Error "Request failed with status code 404");
     import_ := import_ ex_service; trainStart := trainStart ex_service;
     trainStatus := trainStatus ex_service; publish := publish ex_service |}.

(** The version list is served before the import only. *)
Definition ex_reread_rejected : Service :=
  {| versions := λ k,
       if Nat.eqb k 0 then Response [] else Rejected (new_Error "Network Error");
     delete_ := delete_ ex_service; appInfo := appInfo ex_service;
     import_ := import_ ex_service; trainStart := trainStart ex_service;
     trainStatus := trainStatus ex_service; publish := publish ex_service |}.

(** The second poll reports a failed model in its [status] property. *)
Definition ex_status_fails : Service :=
  {| versions := versions ex_service;
     delete_ := delete_ ex_service; appInfo := appInfo ex_service;
     import_ := import_ ex_service; trainStart := trainStart ex_service;
     trainStatus := λ i,
       if Nat.eqb i 0 then Response [ex_model "InProgress" None]
       else Response [ex_model "Success" None;
                      {| modelId := "m2"; status := Some "Fail";
                         details := Some {| d_status := Some "Fail";
                                            failureReason := Some "no examples" |} |}];
     publish := publish ex_service |}.

(** The publish request is rejected with a structured error. *)
Definition ex_publish_rejected : Service :=
  {| versions := versions ex_service;
     delete_ := delete_ ex_service; appInfo := appInfo ex_service;
     import_ := import_ ex_service; trainStart := trainStart ex_service;
     trainStatus := trainStatus ex_service;
     publish := Rejected {| message := "Request failed with status code 429";
                            response_detail := Some "Rate limit is exceeded" |} |}.

(** * Properties *)

(** ** JavaScript helpers *)

Lemma indexOf_lower l x : (-1 ≤ indexOf l x)%Z.
Proof.
  induction l as [|y l IH]; simpl; [lia|].
  case_bool_decide; [lia|].
  destruct (Z.eqb_spec (indexOf l x) (-1)); lia.
Qed.

Lemma indexOf_absent l x : indexOf l x = (-1)%Z ↔ x ∉ l.
Proof.
  induction l as [|y l IH]; simpl.
  - split; [intros _; apply not_elem_of_nil | done].
  - rewrite not_elem_of_cons. case_bool_decide as Hy.
    + split; [lia | intros [? _]; congruence].
    + pose proof (indexOf_lower l x).
      destruct (Z.eqb_spec (indexOf l x) (-1)) as [E|E].
      * split; [intros _; split; [congruence | by apply IH] | done].
      * split; [lia | intros [_ Hn]; apply IH in Hn; lia].
Qed.

(** ** First appearances *)

Lemma elem_of_first_appearances l x : x ∈ first_appearances l ↔ x ∈ l.
Proof.
  induction l as [|y l IH]; simpl; [done|].
  rewrite !elem_of_cons, list_elem_of_filter, IH.
  destruct (decide (x = y)); naive_solver.
Qed.

Lemma NoDup_first_appearances l : NoDup (first_appearances l).
Proof.
  induction l as [|y l IH]; simpl; [constructor|].
  apply NoDup_cons. split.
  - rewrite list_elem_of_filter. naive_solver.
  - by apply NoDup_filter.
Qed.

Lemma first_appearances_snoc l x :
  first_appearances (l ++ [x]) =
  if decide (x ∈ l) then first_appearances l else first_appearances l ++ [x].
Proof.
  induction l as [|y l IH]; simpl; [done|].
  rewrite IH. destruct (decide (x ∈ l)) as [Hin|Hin].
  - rewrite decide_True by (apply elem_of_cons; auto). done.
  - rewrite filter_app. destruct (decide (x = y)) as [->|Hne].
    + rewrite decide_True by (apply elem_of_cons; auto).
      rewrite filter_cons, decide_False by naive_solver.
      by rewrite filter_nil, app_nil_r.
    + rewrite decide_False by (rewrite elem_of_cons; naive_solver).
      rewrite filter_cons, decide_True by done. done.
Qed.

(** ** Loops that may throw *)

Lemma forEach_inv {A S} (f : A → S → Result S) (I : S → Prop) l :
  (∀ x s s', x ∈ l → I s → f x s = Val s' → I s') →
  ∀ s s', I s → forEach f l s = Val s' → I s'.
Proof.
  induction l as [|x l IH]; intros Hf s s' Hs; simpl.
  - intros [= <-]. done.
  - destruct (f x s) as [s1|e] eqn:E; simpl; [|done].
    apply IH.
    + intros y t t' Hy. apply Hf. by apply elem_of_cons; right.
    + eapply Hf; [|done..]. apply elem_of_cons; auto.
Qed.

(** ** Construction of the utterances *)

Section Construction.
Context {EntityDeclaration : Type} (this : LuisProvider EntityDeclaration).

Lemma onLabel_checkLabel label bes ents :
  onLabel this label (bes, ents) =
  rbind (checkLabel this label)
    (λ l, Val (if (indexOf bes l =? -1)%Z then bes ++ [l] else bes,
               ents ++ [{| entity := l; startPos := start label;
                           endPos := end_ label |}])).
Proof.
  unfold onLabel, checkLabel.
  destruct (Entities this !! type label) as [e|]; [|done].
  destruct (negb (String.prefix _ _)); [done|].
  destruct (luis e) as [l|]; [|done].
  by destruct (negb (truthy_string l)).
Qed.

Lemma firstRejection_app l1 l2 :
  firstRejection this (l1 ++ l2) =
  match firstRejection this l1 with
  | Some e => Some e
  | None => firstRejection this l2
  end.
Proof.
  induction l1 as [|x l1 IH]; simpl; [done|].
  destruct (checkLabel this x); [apply IH | done].
Qed.

(** A loop whose body fails exactly when some label of [g x] is
    rejected fails with the first rejection of the whole traversal. *)
Lemma forEach_rejection {A S} (f : A → S → Result S) (g : A → list Label) :
  (∀ x s, match firstRejection this (g x) with
          | Some e => f x s = Err e
          | None => ∃ s', f x s = Val s'
          end) →
  ∀ l s, match firstRejection this (l ≫= g) with
         | Some e => forEach f l s = Err e
         | None => ∃ s', forEach f l s = Val s'
         end.
Proof.
  intros Hf. induction l as [|x l IH]; intros s; simpl.
  - eauto.
  - rewrite firstRejection_app. specialize (Hf x s).
    destruct (firstRejection this (g x)) as [e|].
    + by rewrite Hf.
    + destruct Hf as [s' ->]. simpl. apply IH.
Qed.

Lemma onLabel_outcome label s :
  match firstRejection this [label] with
  | Some e => onLabel this label s = Err e
  | None => ∃ s', onLabel this label s = Val s'
  end.
Proof.
  destruct s as [bes ents]. rewrite onLabel_checkLabel. simpl.
  destruct (checkLabel this label); simpl; eauto.
Qed.

Lemma forEach_onLabel_outcome ls s :
  match firstRejection this ls with
  | Some e => forEach (onLabel this) ls s = Err e
  | None => ∃ s', forEach (onLabel this) ls s = Val s'
  end.
Proof.
  assert (ls ≫= (λ l, [l]) = ls) as E.
  { clear s. induction ls as [|l ls IH]; [done|]. simpl. f_equal. exact IH. }
  pose proof (forEach_rejection (onLabel this) (λ l, [l]) onLabel_outcome ls s)
    as H.
  by rewrite E in H.
Qed.

Lemma onUtterance_outcome i u s :
  match firstRejection this
          (labels (extractLabelsFromCanonical this u (entities i))) with
  | Some e => onUtterance this i u s = Err e
  | None => ∃ s', onUtterance this i u s = Val s'
  end.
Proof.
  destruct s as [us bes]. unfold onUtterance.
  pose proof (forEach_onLabel_outcome
    (labels (extractLabelsFromCanonical this u (entities i))) (bes, [])) as H.
  case_match.
  - by rewrite H.
  - destruct H as [[bes' ents'] ->]. simpl. eauto.
Qed.

Lemma onIntent_outcome i s :
  match firstRejection this
          (utterances i ≫= λ u,
             labels (extractLabelsFromCanonical this u (entities i))) with
  | Some e => onIntent this i s = Err e
  | None => ∃ s', onIntent this i s = Val s'
  end.
Proof.
  unfold onIntent.
  apply (forEach_rejection (onUtterance this i)
           (λ u, labels (extractLabelsFromCanonical this u (entities i)))).
  apply onUtterance_outcome.
Qed.

(** Construction throws the error of the first rejected label of the
    traversal, and succeeds when no label is rejected. *)
Lemma buildUtterances_outcome intents :
  match firstRejection this (corpusLabels this intents) with
  | Some e => buildUtterances this intents = Err e
  | None => ∃ r, buildUtterances this intents = Val r
  end.
Proof.
  unfold buildUtterances, corpusLabels.
  apply (forEach_rejection (onIntent this)
           (λ i, utterances i ≫= λ u,
              labels (extractLabelsFromCanonical this u (entities i)))).
  apply onIntent_outcome.
Qed.

Lemma firstRejection_elem ls label e :
  label ∈ ls → checkLabel this label = Err e →
  ∃ e', firstRejection this ls = Some e'.
Proof.
  induction ls as [|l ls IH]; intros Hin Hc.
  - by apply elem_of_nil in Hin.
  - simpl. destruct (checkLabel this l) as [n|e0] eqn:E; [|eauto].
    apply elem_of_cons in Hin as [->|Hin]; [congruence | auto].
Qed.

Lemma firstRejection_first pre label post e :
  Forall (λ l, ∃ n, checkLabel this l = Val n) pre →
  checkLabel this label = Err e →
  firstRejection this (pre ++ label :: post) = Some e.
Proof.
  intros Hpre Hc. induction Hpre as [|l pre [n Hn] _ IH]; simpl.
  - by rewrite Hc.
  - by rewrite Hn.
Qed.

(** The invariant of the traversal: [builtinEntities] holds the first
    appearances of the names pushed so far. *)
Lemma onLabel_inv pre label bes ents bes' ents' :
  bes = first_appearances (pre ++ (entity <$> ents)) →
  onLabel this label (bes, ents) = Val (bes', ents') →
  bes' = first_appearances (pre ++ (entity <$> ents')).
Proof.
  intros Hb. rewrite onLabel_checkLabel.
  destruct (checkLabel this label) as [l|]; simpl; [|done].
  intros [= <- <-]. rewrite fmap_app, app_assoc. simpl.
  rewrite first_appearances_snoc, <- Hb.
  destruct (Z.eqb_spec (indexOf bes l) (-1)) as [E|E].
  - apply indexOf_absent in E.
    rewrite decide_False; [done|].
    by rewrite Hb, elem_of_first_appearances in E.
  - rewrite decide_True; [done|].
    destruct (decide (l ∈ bes)) as [Hin|Hn].
    + by rewrite Hb, elem_of_first_appearances in Hin.
    + by apply indexOf_absent in Hn.
Qed.

Lemma forEach_onLabel_inv pre ls bes ents bes' ents' :
  bes = first_appearances (pre ++ (entity <$> ents)) →
  forEach (onLabel this) ls (bes, ents) = Val (bes', ents') →
  bes' = first_appearances (pre ++ (entity <$> ents')).
Proof.
  intros Hb H.
  apply (forEach_inv (onLabel this)
           (λ s, s.1 = first_appearances (pre ++ (entity <$> s.2))) ls)
    with (s := (bes, ents)) (s' := (bes', ents')); [|done|done].
  intros x [b e] [b' e'] _. simpl. apply onLabel_inv.
Qed.

Lemma referenced_snoc us u :
  referenced (us ++ [u]) = referenced us ++ (entity <$> u_entities u).
Proof. unfold referenced. rewrite bind_app. simpl. by rewrite app_nil_r. Qed.

Lemma onUtterance_inv i u us bes us' bes' :
  bes = first_appearances (referenced us) →
  onUtterance this i u (us, bes) = Val (us', bes') →
  bes' = first_appearances (referenced us').
Proof.
  intros Hb. unfold onUtterance.
  destruct (forEach (onLabel this) _ (bes, [])) as [[b e]|] eqn:E; simpl;
    [|done].
  intros [= <- <-]. rewrite referenced_snoc.
  eapply forEach_onLabel_inv; [|exact E]. simpl. by rewrite app_nil_r.
Qed.

Lemma buildUtterances_inv intents us bes :
  buildUtterances this intents = Val (us, bes) →
  bes = first_appearances (referenced us).
Proof.
  unfold buildUtterances. intros H.
  apply (forEach_inv (onIntent this)
           (λ s, s.2 = first_appearances (referenced s.1)) intents)
    with (s := ([], [])) (s' := (us, bes)); [|done|done].
  intros i s s' _ Hs Hi. unfold onIntent in Hi.
  apply (forEach_inv (onUtterance this i)
           (λ s, s.2 = first_appearances (referenced s.1)) (utterances i))
    with (s := s) (s' := s'); [|done|done].
  intros u [a b] [a' b'] _. simpl. apply onUtterance_inv.
Qed.

End Construction.

(** ** Training *)

Section Training.
Context {EntityDeclaration : Type} (this : LuisProvider EntityDeclaration).

(** An iteration makes exactly one request and leaves the store alone;
    it ends normally only when the request was answered. *)
Lemma poll_run i st :
  kvs (poll this i st).2 = kvs st ∧
  ∃ b, trace (poll this i st).2 = trace st ++ [{| call := PollTraining; ok := b |}] ∧
       (∀ c, (poll this i st).1 = Ret c → b = true).
Proof.
  unfold poll, bind, request, lift, ret, throw, logger.
  destruct (trainStatus (service this) i) as [models|err]; simpl;
    [|split; [done|]; exists false; split; [done|]; intros c [=] ].
  destruct (filterInProgress models) as [inProgress|err]; simpl;
    [|split; [done|]; by exists true].
  destruct (findFail models) as [m|]; [destruct (details m)|];
    simpl; try (split; [done|]; by exists true).
  destruct (ge1 _); simpl; split; try done; by exists true.
Qed.

(** The outcome of an iteration depends on the answer of the service
    only. *)
Lemma poll_outcome i st st' : (poll this i st).1 = (poll this i st').1.
Proof.
  unfold poll, bind, request, lift, ret, throw, logger.
  destruct (trainStatus (service this) i) as [models|err]; simpl; [|done].
  destruct (filterInProgress models) as [inProgress|err]; simpl; [|done].
  destruct (findFail models) as [m|]; [by destruct (details m)|].
  by destruct (ge1 _).
Qed.

Lemma pollLoop_run fuel : ∀ i st,
  kvs (pollLoop this fuel i st).2 = kvs st ∧
  ∃ t, trace (pollLoop this fuel i st).2 = trace st ++ t ∧
       Forall (λ e, call e = PollTraining) t ∧
       ((pollLoop this fuel i st).1 = Ret tt → Forall (λ e, ok e = true) t).
Proof.
  induction fuel as [|fuel IH]; intros i st; simpl.
  - split; [done|]. exists []. by rewrite app_nil_r.
  - unfold bind. destruct (poll_run i st) as (Hk & b & Ht & Hb).
    destruct (poll this i st) as [[c|e|] s1]; simpl in *.
    + specialize (Hb c eq_refl) as ->. destruct c; simpl.
      * split; [done|]. eexists. split; [exact Ht|].
        split; [|intros _]; by repeat constructor.
      * destruct (IH (S i) s1) as (Hk' & t & Ht' & Hc & Hok).
        split; [congruence|]. exists ({| call := PollTraining; ok := true |} :: t).
        rewrite Ht', Ht, <- app_assoc. split; [done|].
        split; [by constructor|]. intros Hr. constructor; auto.
    + split; [done|]. eexists. split; [exact Ht|].
      split; [by repeat constructor | done].
    + split; [done|]. eexists. split; [exact Ht|].
      split; [by repeat constructor | done].
Qed.

Lemma pollLoop_outcome fuel : ∀ i st st',
  (pollLoop this fuel i st).1 = (pollLoop this fuel i st').1.
Proof.
  induction fuel as [|fuel IH]; intros i st st'; simpl; [done|].
  unfold bind. pose proof (poll_outcome i st st') as H.
  destruct (poll this i st) as [[c|e|] s1], (poll this i st') as [[c'|e'|] s1'];
    simpl in *; try congruence.
  injection H as <-. destruct c; [done | apply IH].
Qed.

(** [train] makes requests of the training endpoints only and leaves the
    store alone; when it returns, training was started, every request
    was answered and the publish request was the last one. *)
Lemma train_run fuel st :
  kvs (train this fuel st).2 = kvs st ∧
  ∃ t, trace (train this fuel st).2 = trace st ++ t ∧
       Forall (training_call this) t ∧
       ((train this fuel st).1 = Ret tt →
        Forall (λ e, ok e = true) t ∧
        {| call := StartTraining; ok := true |} ∈ t ∧
        {| call := Publish (negb (isProduction this)); ok := true |} ∈ t).
Proof.
  unfold train, bind, request, throw, ret.
  destruct (trainStart (service this)) as [res|err]; simpl.
  2:{ split; [done|]. eexists. split; [done|].
      split; [|done]. apply Forall_singleton. by left. }
  destruct (negb _); simpl.
  { split; [done|]. eexists. split; [done|].
    split; [|done]. apply Forall_singleton. by left. }
  set (s0 := emit _ st).
  destruct (pollLoop_run fuel 0 s0) as (Hk & t & Ht & Hc & Hok).
  destruct (pollLoop this fuel 0 s0) as [[[]|e|] s1]; simpl in *.
  - destruct (publish (service this)) as [u|err]; simpl in *.
    + split; [done|]. eexists. rewrite Ht, <- !app_assoc. split; [done|].
      split.
      * constructor; [by left|]. apply Forall_app. split.
        -- eapply Forall_impl; [exact Hc|]. intros e He. right. by left.
        -- apply Forall_singleton. by right; right.
      * intros _. specialize (Hok eq_refl). split; [|split].
        -- constructor; [done|]. apply Forall_app. split; [done|].
           by repeat constructor.
        -- apply elem_of_cons. by left.
        -- apply elem_of_cons. right. apply elem_of_app. right.
           apply elem_of_cons. by left.
    + split; [done|]. eexists. rewrite Ht, <- !app_assoc. split; [done|].
      split; [|done].
      constructor; [by left|]. apply Forall_app. split.
      * eapply Forall_impl; [exact Hc|]. intros e He. right. by left.
      * apply Forall_singleton. by right; right.
  - split; [done|]. eexists. rewrite Ht, <- !app_assoc. split; [done|].
    split; [|done]. constructor; [by left|].
    eapply Forall_impl; [exact Hc|]. intros e0 He. right. by left.
  - split; [done|]. eexists. rewrite Ht, <- !app_assoc. split; [done|].
    split; [|done]. constructor; [by left|].
    eapply Forall_impl; [exact Hc|]. intros e0 He. right. by left.
Qed.

(** The outcome of [train] depends on the answers of the service only. *)
Lemma train_outcome fuel st st' :
  (train this fuel st).1 = (train this fuel st').1.
Proof.
  unfold train, bind, request, throw, ret.
  destruct (trainStart (service this)) as [res|err]; simpl; [|done].
  destruct (negb _); simpl; [done|].
  pose proof (pollLoop_outcome fuel 0
    (emit {| call := StartTraining; ok := true |} st)
    (emit {| call := StartTraining; ok := true |} st')) as H.
  destruct (pollLoop this fuel 0 _) as [[[]|e|] s1],
           (pollLoop this fuel 0 _) as [[[]|e'|] s1'];
    simpl in *; try congruence.
  by destruct (publish (service this)).
Qed.

(** A model whose [status] property is [Fail] ends the loop with the
    training error, before the success exit is considered. *)
Lemma poll_status_Fail i models inProgress m d st :
  trainStatus (service this) i = Response models →
  filterInProgress models = Val inProgress →
  findFail models = Some m → details m = Some d →
  poll this i st =
  (Throw (training_error m d), emit {| call := PollTraining; ok := true |} st).
Proof.
  intros Hp Hf Hm Hd. unfold poll, bind, request, lift, ret, throw.
  rewrite Hp. simpl. rewrite Hf. simpl. by rewrite Hm, Hd.
Qed.

End Training.

(** ** The monad *)

Lemma bind_Ret {A B} (m : M A) (k : A → M B) st a s1 :
  m st = (Ret a, s1) → bind m k st = k a s1.
Proof. unfold bind. by intros ->. Qed.

Lemma bind_Throw {A B} (m : M A) (k : A → M B) st e s1 :
  m st = (Throw e, s1) → bind m k st = (Throw e, s1).
Proof. unfold bind. by intros ->. Qed.

Lemma bind_Diverge {A B} (m : M A) (k : A → M B) st s1 :
  m st = (Diverge, s1) → bind m k st = (Diverge, s1).
Proof. unfold bind. by intros ->. Qed.

(** ** The steps of [sync] before the import *)

Section Prelude.
Context {EntityDeclaration : Type} (this : LuisProvider EntityDeclaration).

(** The version lookup never throws: a rejected request yields the empty
    array. *)
Lemma getRemoteVersion_step k st :
  ∃ s1, getRemoteVersion this k st = (Ret (remoteVersion this k), s1) ∧
    kvs s1 = kvs st ∧
    trace s1 = trace st ++
      [{| call := GetVersions; ok := answered (versions (service this) k) |}] ∧
    ∃ l, log s1 = log st ++ l ∧ Forall (λ x, level x = Debug) l.
Proof.
  unfold getRemoteVersion, remoteVersion, try_catch, bind, request, logger, ret.
  destruct (versions (service this) k) as [vs|err]; simpl; eexists;
    (split; [done|]); (split; [done|]); (split; [done|]).
  - exists []. by rewrite app_nil_r.
  - eexists. split; [done|]. by apply Forall_singleton.
Qed.

(** [isInSync] reads the store once; its outcome depends on the store
    only, and it returns or throws. *)
Lemma isInSync_run intents v st :
  isInSync this intents v st =
  ((isInSync this intents v st).1,
   emit {| call := KvsGet LUIS_HASH_KVS_KEY; ok := true |} st).
Proof.
  unfold isInSync, bind, kvs_get, lift, ret, throw.
  destruct (kvs st !! LUIS_HASH_KVS_KEY) as [m|]; [|done].
  case_bool_decide; [|done].
  by destruct (get_lastModifiedDateTime v).
Qed.

Lemma isInSync_outcome intents v st st' :
  kvs st = kvs st' →
  (isInSync this intents v st).1 = (isInSync this intents v st').1.
Proof.
  intros Hk. unfold isInSync, bind, kvs_get, lift, ret, throw. rewrite Hk.
  destruct (kvs st' !! LUIS_HASH_KVS_KEY) as [m|]; [|done].
  case_bool_decide; [|done].
  by destruct (get_lastModifiedDateTime v).
Qed.

Lemma isInSync_not_Diverge intents v st :
  (isInSync this intents v st).1 ≠ Diverge.
Proof.
  unfold isInSync, bind, kvs_get, lift, ret, throw.
  destruct (kvs st !! LUIS_HASH_KVS_KEY) as [m|]; [|done].
  case_bool_decide; [|done].
  by destruct (get_lastModifiedDateTime v).
Qed.

(** A rejected deletion is logged and swallowed. *)
Lemma deleteVersion_step st :
  ∃ s1, deleteVersion this st = (Ret tt, s1) ∧
    kvs s1 = kvs st ∧
    trace s1 = trace st ++
      [{| call := DeleteVersion; ok := answered (delete_ (service this)) |}] ∧
    ∃ l, log s1 = log st ++ l ∧ Forall (λ x, level x = Debug) l.
Proof.
  unfold deleteVersion, try_catch, bind, request, logger, ret.
  destruct (delete_ (service this)) as [del|err]; simpl.
  - case_bool_decide; simpl; eexists; (split; [done|]); (split; [done|]);
      (split; [done|]).
    + eexists. split; [done|]. by apply Forall_singleton.
    + exists []. by rewrite app_nil_r.
  - eexists. split; [done|]. split; [done|]. split; [done|].
    eexists. split; [done|]. by apply Forall_singleton.
Qed.

End Prelude.

(** ** The runs of [sync] *)

Section Sync.
Context {EntityDeclaration : Type} (this : LuisProvider EntityDeclaration).

#[local] Arguments train : simpl never.
#[local] Arguments buildUtterances : simpl never.

(** Every run of [sync] ends in one of the ways listed by [sync_run]. *)
Lemma sync_run_shape intents fuel store :
  sync_run this intents fuel store
    (run_sync this intents fuel store).1 (run_sync this intents fuel store).2.
Proof.
  remember (run_sync this intents fuel store) as p eqn:Hp.
  unfold run_sync, sync in Hp.
  destruct (getRemoteVersion_step this 0 (initial store))
    as (s1 & E1 & K1 & T1 & l1 & L1 & D1).
  simpl in K1, T1, L1.
  rewrite (bind_Ret _ _ _ _ _ E1) in Hp. clear E1.
  pose proof (isInSync_run this intents (remoteVersion this 0) s1) as E2.
  assert (decision this intents store =
          (isInSync this intents (remoteVersion this 0) s1).1) as Hd
    by (apply isInSync_outcome; by rewrite K1).
  pose proof (isInSync_not_Diverge this intents (remoteVersion this 0) s1) as Hn.
  destruct (isInSync this intents (remoteVersion this 0) s1).1
    as [inSync|e|]; [| |done]; clear Hn.
  2:{ rewrite (bind_Throw _ _ _ _ _ E2) in Hp. subst p.
      apply Run_check_failed; simpl; [done|done|by rewrite T1|].
      by rewrite L1. }
  rewrite (bind_Ret _ _ _ _ _ E2) in Hp. clear E2.
  destruct inSync.
  { unfold logger in Hp. subst p.
    apply Run_up_to_date; simpl; [done|done|by rewrite T1|apply last_snoc|].
    rewrite L1. apply Forall_app. split; [done|]. by apply Forall_singleton. }
  unfold logger at 1 in Hp. unfold bind at 1 in Hp. unfold bind at 1 in Hp.
  simpl in Hp.
  set (s3 := {| kvs := kvs s1 |}) in *.
  assert (∃ s4, (if truthy (remoteVersion this 0)
                 then logger Debug "[NLU::Luis] Deleting old version of the model"
                      >>> deleteVersion this
                 else ret tt)%M s3 = (Ret tt, s4) ∧
                kvs s4 = store ∧
                trace s4 = checked this ++ deleted this ∧
                Forall (λ x, level x = Debug) (log s4))
    as (s4 & E4 & K4 & T4 & L4).
  { unfold deleted. destruct (truthy (remoteVersion this 0)).
    - unfold logger, bind.
      destruct (deleteVersion_step this
        {| kvs := kvs s3; trace := trace s3;
           log := log s3 ++ [{| level := Debug;
                  msg := "[NLU::Luis] Deleting old version of the model" |}] |})
        as (s4 & -> & K & T & l & L & D).
      exists s4. split; [done|]. simpl in *.
      split; [congruence|]. split; [by rewrite T, T1|].
      rewrite L, L1. repeat (apply Forall_app; split); try done;
        by apply Forall_singleton.
    - exists s3. split; [done|]. simpl. split; [done|].
      split; [by rewrite T1, ?app_nil_r|].
      rewrite L1. repeat (apply Forall_app; split); try done;
        by apply Forall_singleton. }
  rewrite E4 in Hp.
  clear E4 s3 K1 T1 L1 D1 l1 s1.
  unfold bind at 1 in Hp.
  destruct (buildUtterances this intents) as [[utterances builtinEntities]|e]
    eqn:Eb; simpl in Hp.
  2:{ subst p. by apply Run_construction_failed. }
  unfold getAppInfo, try_catch, request, throw in Hp. unfold bind at 1 in Hp.
  destruct (appInfo (service this)) as [info|err0] eqn:Ea.
  2:{ subst p. eapply Run_app_not_found; simpl; eauto.
      by rewrite T4, <- app_assoc. }
  set (body := mkBody info intents utterances builtinEntities) in *.
  assert (imports this intents store body) as Himp.
  { split; [done|]. by exists utterances, builtinEntities, info. }
  unfold bind at 1 in Hp.
  destruct (import_ (service this) body) as [result|err] eqn:Ei.
  2:{ unfold logger in Hp. subst p.
      eapply Run_import_rejected; simpl; eauto using last_snoc.
      by rewrite T4, <- !app_assoc. }
  set (s0 := emit {| call := ImportVersion body; ok := true |} _) in *.
  assert (imported this intents store body result s0) as Hed.
  { split; [done|]. split; [done|]. split; [done|].
    simpl. by rewrite T4, <- !app_assoc. }
  unfold bind at 1 in Hp.
  destruct (train_run this fuel s0) as (Hk & _).
  destruct (train this fuel s0) as [[[]|err|] s6] eqn:Et; simpl in Hk.
  3:{ subst p. replace s6 with (train this fuel s0).2 by (by rewrite Et).
      eapply Run_training_diverged; eauto. by rewrite Et. }
  2:{ unfold logger in Hp. subst p.
      eapply (Run_training_failed _ _ _ _ _ s0); simpl;
        eauto using last_snoc; try (by rewrite Et). by rewrite Hk. }
  destruct (getRemoteVersion_step this 1 s6)
    as (s7 & E7 & K7 & T7 & l7 & L7 & D7).
  rewrite (bind_Ret _ _ _ _ _ E7) in Hp.
  unfold onSyncSuccess, lift, kvs_set in Hp.
  destruct (get_lastModifiedDateTime (remoteVersion this 1)) as [t|e] eqn:Ev.
  - unfold bind, ret, logger in Hp. subst p.
    eapply (Run_recorded _ _ _ _ _ s0); simpl; eauto using last_snoc;
      try (by rewrite Et).
    + by rewrite K7, Hk, K4.
    + rewrite T7, Et, <- app_assoc. done.
  - unfold bind, throw, logger in Hp. subst p.
    assert (remoteVersion this 1 = Undefined ∧
            answered (versions (service this) 1) = true) as [Hu Ha].
    { unfold remoteVersion in *.
      destruct (versions (service this) 1); [|done].
      by destruct (find_version data). }
    rewrite Hu in Ev. injection Ev as <-.
    eapply (Run_record_failed _ _ _ _ _ s0); simpl; eauto using last_snoc;
      try (by rewrite Et).
    + by rewrite K7, Hk, K4.
    + by rewrite T7, Et, Ha.
Qed.

End Sync.

(** ** The names referenced by a payload *)

Lemma forEach_inv_prefix {A S} (f : A → S → Result S)
    (I : list A → S → Prop) l :
  (∀ pre x s s', I pre s → f x s = Val s' → I (pre ++ [x]) s') →
  ∀ pre s s', I pre s → forEach f l s = Val s' → I (pre ++ l) s'.
Proof.
  intros Hf. induction l as [|x l IH]; intros pre s s' Hs; simpl.
  - intros [= <-]. by rewrite app_nil_r.
  - destruct (f x s) as [s1|e] eqn:E; simpl; [|done].
    intros H. rewrite (cons_middle x pre l), app_assoc.
    eapply IH; [|exact H]. by eapply Hf.
Qed.

Section Referenced.
Context {EntityDeclaration : Type} (this : LuisProvider EntityDeclaration).

Lemma forEach_onLabel_names ls bes bes' ents' :
  forEach (onLabel this) ls (bes, []) = Val (bes', ents') →
  checkLabel this <$> ls = Val <$> (entity <$> ents').
Proof.
  intros H.
  apply (forEach_inv_prefix (onLabel this)
           (λ pre s, checkLabel this <$> pre = Val <$> (entity <$> s.2)) ls)
    with (pre := []) (s := (bes, [])) (s' := (bes', ents')); [|done|done].
  intros pre x [b e] [b' e'] Hpre. rewrite onLabel_checkLabel. simpl in *.
  destruct (checkLabel this x) as [l|] eqn:E; simpl; [|done].
  intros [= <- <-]. rewrite !fmap_app, Hpre. simpl. by rewrite E.
Qed.

Lemma onUtterance_names i u ls us bes us' bes' :
  checkLabel this <$> ls = Val <$> referenced us →
  onUtterance this i u (us, bes) = Val (us', bes') →
  checkLabel this <$>
    (ls ++ labels (extractLabelsFromCanonical this u (entities i))) =
  Val <$> referenced us'.
Proof.
  intros Hls. unfold onUtterance.
  destruct (forEach (onLabel this) _ (bes, [])) as [[b e]|] eqn:E; simpl;
    [|done].
  intros [= <- <-]. rewrite referenced_snoc, !fmap_app, Hls. simpl.
  f_equal. by eapply forEach_onLabel_names.
Qed.

Lemma buildUtterances_names intents us bes :
  buildUtterances this intents = Val (us, bes) →
  checkLabel this <$> corpusLabels this intents = Val <$> referenced us.
Proof.
  unfold buildUtterances. intros H.
  apply (forEach_inv_prefix (onIntent this)
           (λ pre s, checkLabel this <$> corpusLabels this pre =
                     Val <$> referenced s.1) intents)
    with (pre := []) (s := ([], [])) (s' := (us, bes)); [|done|done].
  clear. intros pre i s s' Hpre Hi. unfold onIntent in Hi.
  unfold corpusLabels. rewrite bind_app. simpl. rewrite app_nil_r.
  apply (forEach_inv_prefix (onUtterance this i)
           (λ p t, checkLabel this <$>
                     (corpusLabels this pre ++
                      (p ≫= λ u, labels (extractLabelsFromCanonical this u
                                            (entities i)))) =
                   Val <$> referenced t.1) (utterances i))
    with (pre := []) (s := s) (s' := s'); [|by rewrite app_nil_r|done].
  clear. intros p u [a b] [a' b'] Hp Hu. simpl in *.
  rewrite bind_app. simpl. rewrite app_nil_r, app_assoc.
  by eapply onUtterance_names.
Qed.

End Referenced.

(** ** The requests of a run *)

(** Case analysis on the way a run ends. *)
Ltac sync_cases H :=
  destruct H as
    [st Rd Rk Rt Rl RD
    |st ex Rd Rk Rt RD
    |st ex Rd Rb Rk Rt RD
    |st rv err Rd Rb Ra Rk Rt RD
    |st body err Ri Rr Rk Rt Rl
    |st s0 body result err Ri Rtr Rk Rt Rl
    |s0 body result Ri Rtr
    |st s0 body result Ri Rtr Rv Rk Rt Rl
    |st s0 body result t Ri Rtr Rv Rk Rt Rl].

Section Requests.
Context {EntityDeclaration : Type} (this : LuisProvider EntityDeclaration).

Lemma checked_deleted_prelude e :
  e ∈ checked this ++ deleted this → prelude_call e.
Proof.
  unfold checked, deleted, prelude_call.
  destruct (truthy (remoteVersion this 0)); simpl;
    rewrite ?elem_of_cons, elem_of_nil; intros H; destruct_or!; subst; simpl;
    auto.
Qed.

(** The requests made once the import has been answered: those before
    the import, the import, and the requests of [train]. *)
Lemma imported_train_trace intents store body result s0 fuel e :
  imported this intents store body result s0 →
  e ∈ trace (train this fuel s0).2 →
  prelude_call e ∨ e = {| call := ImportVersion body; ok := true |} ∨
  training_call this e.
Proof.
  intros (_ & _ & _ & Rt) He.
  destruct (train_run this fuel s0) as (_ & t & Rt' & Hc & _).
  rewrite Rt', Rt, !elem_of_app, !elem_of_cons, elem_of_nil in He.
  destruct He as [[He|[He|[->|[->|[]]]]]|He].
  - left. apply checked_deleted_prelude, elem_of_app. by left.
  - left. apply checked_deleted_prelude, elem_of_app. by right.
  - left. by repeat right.
  - right. by left.
  - right; right. by eapply Forall_forall in Hc.
Qed.

(** Every request of a run is one of the requests made before the
    import, the import of a constructed payload, a request of [train],
    the second version lookup, or the write of the fingerprint. *)
Lemma sync_requests intents fuel store e :
  e ∈ trace (run_sync this intents fuel store).2 →
  prelude_call e ∨
  (∃ body, imports this intents store body ∧ call e = ImportVersion body) ∨
  training_call this e ∨
  (∃ t, e = {| call := KvsSet LUIS_HASH_KVS_KEY
                         {| hash := md5_hex this intents; time := t |};
               ok := true |}).
Proof.
  intros He.
  pose proof (sync_run_shape this intents fuel store) as H.
  destruct (run_sync this intents fuel store) as [o fin]. simpl in *.
  sync_cases H; try rewrite Rt in He; try clear Rt.
  - left. apply checked_deleted_prelude, elem_of_app. by left.
  - left. apply checked_deleted_prelude, elem_of_app. by left.
  - left. by apply checked_deleted_prelude.
  - rewrite app_assoc, elem_of_app, elem_of_cons, elem_of_nil in He.
    destruct He as [He|[->|[]]];
      [left; by apply checked_deleted_prelude | left; by repeat right].
  - rewrite app_assoc, elem_of_app, !elem_of_cons, elem_of_nil in He.
    destruct He as [He|[->|[->|[]]]].
    + left. by apply checked_deleted_prelude.
    + left. by repeat right.
    + right; left. by exists body.
  - destruct (imported_train_trace _ _ _ _ _ _ _ Ri He) as [?|[->|?]]; auto.
    right; left. exists body. by destruct Ri.
  - destruct (imported_train_trace _ _ _ _ _ _ _ Ri He) as [?|[->|?]]; auto.
    right; left. exists body. by destruct Ri.
  - rewrite elem_of_app, elem_of_cons, elem_of_nil in He.
    destruct He as [He|[->|[]]]; [|left; by left].
    destruct (imported_train_trace _ _ _ _ _ _ _ Ri He) as [?|[->|?]]; auto.
    right; left. exists body. by destruct Ri.
  - rewrite elem_of_app, !elem_of_cons, elem_of_nil in He.
    destruct He as [He|[->|[->|[]]]]; [|left; by left|by repeat right; exists t].
    destruct (imported_train_trace _ _ _ _ _ _ _ Ri He) as [?|[->|?]]; auto.
    right; left. exists body. by destruct Ri.
Qed.

Lemma prelude_call_kind e :
  prelude_call e →
  is_ImportVersion e = false ∧ is_KvsSet e = false ∧
  is_PollTraining e = false ∧ is_Publish e = false ∧
  is_StartTraining e = false.
Proof.
  unfold prelude_call, is_ImportVersion, is_KvsSet, is_PollTraining, is_Publish,
    is_StartTraining.
  intros H; destruct_or!; by rewrite H.
Qed.

Lemma training_call_kind e :
  training_call this e →
  is_ImportVersion e = false ∧ is_KvsSet e = false ∧ is_DeleteVersion e = false.
Proof.
  unfold training_call, is_ImportVersion, is_KvsSet, is_DeleteVersion.
  intros H; destruct_or!; by rewrite H.
Qed.

End Requests.

(** ** Rejected labels *)

Section Rejection.
Context {EntityDeclaration : Type} (this : LuisProvider EntityDeclaration).

(** When the construction throws, a run imports nothing and leaves the
    store as it was; if it found the model out of date, it ends with the
    error of the construction thrown. *)
Lemma construction_failure_run intents e fuel store :
  buildUtterances this intents = Err e →
  (∀ ev, ev ∈ trace (run_sync this intents fuel store).2 →
         is_ImportVersion ev = false) ∧
  (decision this intents store = Ret false →
   (run_sync this intents fuel store).1 = Throw e) ∧
  kvs (run_sync this intents fuel store).2 = store.
Proof.
  intros Herr.
  assert (∀ body, ¬ imports this intents store body) as Hno.
  { intros body (_ & us & bes & info & Hval & _). congruence. }
  split; [|split].
  - intros ev Hev.
    destruct (sync_requests this intents fuel store ev Hev)
      as [H|[(body & Himp & _)|[H|[t ->]]]].
    + by apply prelude_call_kind in H as (? & _).
    + by apply Hno in Himp.
    + by apply (training_call_kind this) in H as (? & _).
    + done.
  - intros Hdec.
    pose proof (sync_run_shape this intents fuel store) as H.
    destruct (run_sync this intents fuel store) as [o fin]. simpl in *.
    sync_cases H; try congruence; try (by apply Hno in Ri);
      destruct Ri as [Ri _]; by apply Hno in Ri.
  - pose proof (sync_run_shape this intents fuel store) as H.
    destruct (run_sync this intents fuel store) as [o fin]. simpl in *.
    sync_cases H; try done; try (by apply Hno in Ri);
      destruct Ri as [Ri _]; by apply Hno in Ri.
Qed.

(** A corpus with a label that fails the guards of [onLabel] cannot be
    turned into a payload. *)
Lemma rejected_label_aborts intents label e0 :
  label ∈ corpusLabels this intents →
  checkLabel this label = Err e0 →
  ∃ e, firstRejection this (corpusLabels this intents) = Some e ∧
       buildUtterances this intents = Err e.
Proof.
  intros Hin Hc.
  destruct (firstRejection_elem this _ _ _ Hin Hc) as [e He].
  exists e. split; [done|].
  pose proof (buildUtterances_outcome this intents) as H. by rewrite He in H.
Qed.

End Rejection.

(** ** The store *)

Lemma filter_none {A} (P : A → bool) (l : list A) :
  (∀ x, x ∈ l → P x = false) → filter (λ x, P x = true) l = [].
Proof.
  induction l as [|x l IH]; intros H; [done|].
  rewrite filter_cons, decide_False.
  - apply IH. intros y Hy. apply H, elem_of_cons. by right.
  - rewrite (H x); [done|]. apply elem_of_cons. by left.
Qed.

Section Store.
Context {EntityDeclaration : Type} (this : LuisProvider EntityDeclaration).

Lemma prelude_not_training e : prelude_call e → ¬ training_call this e.
Proof.
  unfold prelude_call, training_call. intros H H'.
  destruct_or!; congruence.
Qed.

(** The requests made up to the end of [train], in detail. *)
Lemma imported_train_run intents store body result s0 fuel :
  imported this intents store body result s0 →
  ∃ t, trace (train this fuel s0).2 =
         checked this ++ deleted this ++
         [{| call := GetAppInfo; ok := true |};
          {| call := ImportVersion body; ok := true |}] ++ t ∧
       Forall (training_call this) t ∧
       kvs (train this fuel s0).2 = store ∧
       ((train this fuel s0).1 = Ret tt →
        Forall (λ e, ok e = true) t ∧
        {| call := StartTraining; ok := true |} ∈ t ∧
        {| call := Publish (negb (isProduction this)); ok := true |} ∈ t).
Proof.
  intros (_ & _ & Hk & Ht).
  destruct (train_run this fuel s0) as (Hk' & t & Ht' & Hc & Hok).
  exists t. rewrite Ht', Ht, <- !app_assoc. split; [done|].
  split; [done|]. split; [congruence|done].
Qed.

(** A run either leaves the store as it was, without writing to it, or
    it ends normally with the write of the fingerprint as its last
    request, after [train] has returned. *)
Lemma sync_store intents fuel store :
  (kvs (run_sync this intents fuel store).2 = store ∧
   ∀ e, e ∈ trace (run_sync this intents fuel store).2 → is_KvsSet e = false) ∨
  ((run_sync this intents fuel store).1 = Ret tt ∧
   ∃ s0 body result t,
     imported this intents store body result s0 ∧
     (train this fuel s0).1 = Ret tt ∧
     kvs (run_sync this intents fuel store).2 =
       <[LUIS_HASH_KVS_KEY :=
           {| hash := md5_hex this intents; time := t |}]> store ∧
     trace (run_sync this intents fuel store).2 =
       trace (train this fuel s0).2 ++
       [{| call := GetVersions; ok := answered (versions (service this) 1) |};
        {| call := KvsSet LUIS_HASH_KVS_KEY
                     {| hash := md5_hex this intents; time := t |};
           ok := true |}]).
Proof.
  pose proof (sync_run_shape this intents fuel store) as H.
  destruct (run_sync this intents fuel store) as [o fin]. simpl in *.
  assert (∀ e, e ∈ checked this ++ deleted this → is_KvsSet e = false) as Hp.
  { intros e He. apply checked_deleted_prelude in He.
    by apply prelude_call_kind in He as (_ & ? & _). }
  assert (∀ s0 body result e,
            imported this intents store body result s0 →
            e ∈ trace (train this fuel s0).2 → is_KvsSet e = false) as Htrain.
  { intros s0 body result e Hi He.
    destruct (imported_train_trace this _ _ _ _ _ _ _ Hi He) as [?|[->|?]].
    - by apply prelude_call_kind in H0 as (_ & ? & _).
    - done.
    - by apply (training_call_kind this) in H0 as (_ & ? & _). }
  sync_cases H.
  - left. split; [done|]. intros e He. rewrite Rt in He.
    apply Hp, elem_of_app. by left.
  - left. split; [done|]. intros e He. rewrite Rt in He.
    apply Hp, elem_of_app. by left.
  - left. split; [done|]. intros e He. rewrite Rt in He. by apply Hp.
  - left. split; [done|]. intros e He.
    rewrite Rt, app_assoc, elem_of_app, elem_of_cons, elem_of_nil in He.
    destruct He as [He|[->|[]]]; [by apply Hp | done].
  - left. split; [done|]. intros e He.
    rewrite Rt, app_assoc, elem_of_app, !elem_of_cons, elem_of_nil in He.
    destruct He as [He|[->|[->|[]]]]; [by apply Hp | done | done].
  - left. split; [done|]. intros e He. rewrite Rt in He. by eapply Htrain.
  - left. split.
    + by destruct (imported_train_run _ _ _ _ _ fuel Ri) as (_ & _ & _ & ? & _).
    + intros e He. by eapply Htrain.
  - left. split; [done|]. intros e He.
    rewrite Rt, elem_of_app, elem_of_cons, elem_of_nil in He.
    destruct He as [He|[->|[]]]; [by eapply Htrain | done].
  - right. split; [done|]. by exists s0, body, result, t.
Qed.

End Store.

(** ** The decision and the deletion *)

Section Decision.
Context {EntityDeclaration : Type} (this : LuisProvider EntityDeclaration).

(** With a remote version at hand (an element of the version list, or
    the empty array), [isInSync] returns, and it returns [true] exactly
    when the store holds a fingerprint with the digest of the corpus and
    the timestamp read from the remote version. *)
Lemma isInSync_returns intents v t st :
  get_lastModifiedDateTime v = Val t →
  ∃ b, (isInSync this intents v st).1 = Ret b ∧
       (b = true ↔
        ∃ m, kvs st !! LUIS_HASH_KVS_KEY = Some m ∧
             hash m = md5_hex this intents ∧ time m = t).
Proof.
  intros Hv. unfold isInSync, bind, kvs_get, lift, ret. rewrite Hv. simpl.
  destruct (kvs st !! LUIS_HASH_KVS_KEY) as [m|] eqn:E; simpl.
  - case_bool_decide as Hh; simpl.
    + eexists. split; [done|]. rewrite bool_decide_eq_true.
      split; [by exists m | by intros (m' & [= <-] & _ & ?)].
    + exists false. split; [done|].
      split; [done | by intros (m' & [= <-] & ? & _)].
  - exists false. split; [done|]. split; [done | by intros (m' & [=] & _)].
Qed.

(** Without a fingerprint of the corpus in the store the model is out of
    date, whatever the remote version is. *)
Lemma isInSync_no_fingerprint intents v st :
  (∀ m, kvs st !! LUIS_HASH_KVS_KEY = Some m → hash m ≠ md5_hex this intents) →
  (isInSync this intents v st).1 = Ret false.
Proof.
  intros H. unfold isInSync, bind, kvs_get, lift, ret.
  destruct (kvs st !! LUIS_HASH_KVS_KEY) as [m|] eqn:E; simpl; [|done].
  case_bool_decide as Hh; [|done]. by apply H in Hh.
Qed.

(** A run that finds the model out of date goes on with the deletion,
    when the remote version is truthy. *)
Lemma needs_update_trace intents fuel store :
  decision this intents store = Ret false →
  ∃ rest, trace (run_sync this intents fuel store).2 =
          checked this ++ deleted this ++ rest.
Proof.
  intros Hdec.
  pose proof (sync_run_shape this intents fuel store) as H.
  destruct (run_sync this intents fuel store) as [o fin]. cbn [fst snd] in *.
  sync_cases H; try congruence.
  - exists []. by rewrite Rt, app_nil_r.
  - rewrite Rt. by eexists.
  - rewrite Rt. by eexists.
  - destruct (imported_train_run this _ _ _ _ _ fuel Ri) as (t & Ht & _).
    rewrite Rt, Ht. by eexists.
  - destruct (imported_train_run this _ _ _ _ _ fuel Ri) as (t & -> & _).
    by eexists.
  - destruct (imported_train_run this _ _ _ _ _ fuel Ri) as (t & Ht & _).
    rewrite Rt, Ht, <- !app_assoc. by eexists.
  - destruct (imported_train_run this _ _ _ _ _ fuel Ri) as (t' & Ht & _).
    rewrite Rt, Ht, <- !app_assoc. by eexists.
Qed.

End Decision.

(** ** The progress ratio and the exits of an iteration *)

Lemma ge1_ratio total inProgress :
  ge1 (ratio total inProgress) = true ↔ total ≠ 0 ∧ inProgress = 0.
Proof.
  unfold ge1, ratio. destruct total as [|n]; simpl; [split; [done|]; by intros []|].
  rewrite Qle_bool_iff. unfold Qle. simpl.
  rewrite <- Pos.of_nat_succ, Zpos_P_of_succ_nat.
  destruct inProgress; simpl; split; try lia; intros; split; try done; lia.
Qed.

Lemma filterInProgress_Val models :
  (∃ l, filterInProgress models = Val l) ↔
  Forall (λ m, is_Some (details m)) models.
Proof.
  induction models as [|m ms IH]; simpl.
  - split; [by constructor | by exists []].
  - rewrite Forall_cons, <- IH. destruct (details m) as [d|].
    + destruct (filterInProgress ms) as [rest|e]; simpl; split.
      * intros _. split; [by exists d | by exists rest].
      * intros _. by eexists.
      * by intros [l ?].
      * by intros [_ [l ?]].
    + split; [by intros [l ?] | by intros [[d ?] _]].
Qed.

Lemma filterInProgress_nil models l :
  filterInProgress models = Val l →
  (l = [] ↔ Forall (λ m, ¬ in_progress m) models).
Proof.
  revert l. induction models as [|m ms IH]; intros l; simpl.
  - intros [= <-]. split; [by constructor | done].
  - destruct (details m) as [d|] eqn:Ed; [|done].
    destruct (filterInProgress ms) as [rest|e]; simpl; [|done].
    intros [= <-]. rewrite Forall_cons, <- (IH rest eq_refl).
    unfold in_progress. rewrite Ed. case_bool_decide as Hs; split.
    + done.
    + intros [Hn _]. exfalso. apply Hn. by exists d.
    + intros ->. split; [|done]. by intros (d' & [= <-] & ?).
    + by intros [_ ?].
Qed.

Lemma filterInProgress_elem models l x :
  filterInProgress models = Val l → x ∈ l → x ∈ models ∧ in_progress x.
Proof.
  revert l. induction models as [|m ms IH]; intros l; simpl.
  - intros [= <-] Hx. by apply elem_of_nil in Hx.
  - destruct (details m) as [d|] eqn:Ed; [|done].
    destruct (filterInProgress ms) as [rest|e]; simpl; [|done].
    intros [= <-]. case_bool_decide as Hs.
    + intros [->|Hx]%elem_of_cons.
      * split; [apply elem_of_cons; by left | by exists d].
      * destruct (IH rest eq_refl Hx). split; [|done].
        apply elem_of_cons. by right.
    + intros Hx. destruct (IH rest eq_refl Hx). split; [|done].
      apply elem_of_cons. by right.
Qed.

Lemma findFail_None models :
  findFail models = None ↔ Forall (λ m, ¬ failed m) models.
Proof.
  unfold findFail, failed. induction models as [|m ms IH]; simpl.
  - split; [by constructor | done].
  - rewrite Forall_cons, <- IH. case_bool_decide; split; try done.
    + by intros [? _].
    + by intros [_ ?].
Qed.

Lemma findFail_first pre m post :
  failed m → Forall (λ x, ¬ failed x) pre →
  findFail (pre ++ m :: post) = Some m.
Proof.
  unfold findFail, failed. intros Hm Hpre.
  induction Hpre as [|x pre Hx _ IH]; simpl.
  - by rewrite bool_decide_true.
  - by rewrite bool_decide_false.
Qed.

Section Exits.
Context {EntityDeclaration : Type} (this : LuisProvider EntityDeclaration).

(** An answer with models that all have [details], none in progress and
    none with the [status] property [Fail], takes the success exit. *)
Lemma poll_takes_success_exit i models st :
  trainStatus (service this) i = Response models →
  models ≠ [] →
  Forall (λ m, is_Some (details m)) models →
  Forall (λ m, ¬ in_progress m) models →
  Forall (λ m, ¬ failed m) models →
  (poll this i st).1 = Ret Break.
Proof.
  intros Hpoll Hne Hd Hip Hf.
  apply filterInProgress_Val in Hd as [l Hl].
  apply (filterInProgress_nil _ _ Hl) in Hip as ->.
  apply findFail_None in Hf.
  assert (ge1 (ratio (length models) 0) = true) as Hge.
  { apply ge1_ratio. split; [by destruct models | done]. }
  unfold poll, bind, request, lift, ret, logger.
  rewrite Hpoll. simpl. rewrite Hl. simpl. by rewrite Hf, Hge.
Qed.

(** When the first poll takes the success exit, [train] publishes and
    returns. *)
Lemma train_first_poll_exit res fuel st :
  trainStart (service this) = Response res →
  ts_status res = Some "Queued" →
  (∀ s, (poll this 0 s).1 = Ret Break) →
  publish (service this) = Response tt →
  (train this (S fuel) st).1 = Ret tt.
Proof.
  intros Hstart Hq Hbreak Hpub.
  unfold train, request, bind. rewrite Hstart, Hq. simpl. unfold bind.
  specialize (Hbreak (emit {| call := StartTraining; ok := true |} st)).
  destruct (poll this 0 _) as [c s1]. simpl in Hbreak. subst c.
  unfold ret. by rewrite Hpub.
Qed.

End Exits.

(** ** Determinism of the import *)

Section Importing.
Context {EntityDeclaration : Type} (this : LuisProvider EntityDeclaration).

Lemma imports_unique intents store body body' :
  imports this intents store body → imports this intents store body' →
  body = body'.
Proof.
  intros (_ & us & bes & info & Hv & Ha & ->)
         (_ & us' & bes' & info' & Hv' & Ha' & ->).
  congruence.
Qed.

(** A run in which the import is rejected ends normally, with the
    message of the [catch] as last log line. *)
Lemma import_rejected_run intents fuel store payload rejection :
  imports this intents store payload →
  import_ (service this) payload = Rejected rejection →
  (run_sync this intents fuel store).1 = Ret tt ∧
  last (log (run_sync this intents fuel store).2) =
    Some {| level := Error; msg := sync_error_message rejection |}.
Proof.
  intros Himp Hrej.
  pose proof (sync_run_shape this intents fuel store) as H.
  destruct (run_sync this intents fuel store) as [o fin]. cbn [fst snd] in *.
  pose proof Himp as (Hdec & us & bes & info & Hv & Ha & _).
  sync_cases H; try congruence;
    try (destruct Ri as (Ri & Rok & _);
         pose proof (imports_unique _ _ _ _ Himp Ri) as <-; congruence).
  pose proof (imports_unique _ _ _ _ Himp Ri) as <-.
  split; [done|]. congruence.
Qed.

End Importing.

(** ** Two runs of the small bot *)

(** First sync: no delete, one import, three polls, publish to staging,
    and the fingerprint written with the new timestamp. *)
Example first_sync :
  run_sync (ex_provider ex_service) ex_greet 5 ∅ =
  (Ret tt,
   {| kvs := {[ LUIS_HASH_KVS_KEY :=
                  {| hash := ex_digest ex_greet;
                     time := Some "2018-01-01" |} ]};
      trace :=
        [{| call := GetVersions; ok := true |};
         {| call := KvsGet LUIS_HASH_KVS_KEY; ok := true |};
         {| call := GetAppInfo; ok := true |};
         {| call := ImportVersion ex_greet_body; ok := true |};
         {| call := StartTraining; ok := true |};
         {| call := PollTraining; ok := true |};
         {| call := PollTraining; ok := true |};
         {| call := PollTraining; ok := true |};
         {| call := Publish true; ok := true |};
         {| call := GetVersions; ok := true |};
         {| call := KvsSet LUIS_HASH_KVS_KEY
                      {| hash := ex_digest ex_greet;
                         time := Some "2018-01-01" |};
            ok := true |}];
      log :=
        [{| level := Debug; msg := "[NLU::Luis] The model needs to be updated" |};
         {| level := Debug; msg := "[NLU::Luis] Training... 0%" |};
         {| level := Debug; msg := "[NLU::Luis] Training... 0%" |};
         {| level := Debug; msg := "[NLU::Luis] Model trained (100%)" |};
         {| level := Info; msg := "[NLU::Luis] Synced model [1.0]" |}] |}).
Proof. by vm_compute. Qed.

(** A model that fails with [Fail] in its [status] property: the
    training error is thrown at the first poll and nothing is
    published. *)
Example status_Fail_stops_training :
  train (ex_provider
           {| versions := versions ex_service; delete_ := delete_ ex_service;
              appInfo := appInfo ex_service; import_ := import_ ex_service;
              trainStart := trainStart ex_service;
              trainStatus := λ _,
                Response [{| modelId := "m1"; status := Some "Fail";
                             details := Some {| d_status := Some "Fail";
                                                failureReason := Some "no examples" |} |}];
              publish := publish ex_service |}) 5 (initial ∅) =
  (Throw (new_Error ("[NLU::Luis] Error training model " +:+ dquote +:+ "m1"
                     +:+ dquote +:+ ", reason is " +:+ dquote +:+ "no examples"
                     +:+ dquote)),
   {| kvs := ∅;
      trace := [{| call := StartTraining; ok := true |};
                {| call := PollTraining; ok := true |}];
      log := [] |}).
Proof. by vm_compute. Qed.

(** * The claims *)

(** Membership in a list given by its elements. *)
Ltac elem_of_list :=
  repeat first [ by apply list_elem_of_here | apply list_elem_of_further ].

Section Claims.
Context {EntityDeclaration : Type} (this : LuisProvider EntityDeclaration).

(** C1.  Change detection, where the code departs from it: when the
    version list is served without the application version (the remote
    version is absent) and the store holds the fingerprint of the
    corpus, [isInSync] does not report a mismatch; reading the timestamp
    of [undefined] throws, and the error leaves [sync]. *)
Theorem isInSync_throws_without_remote_version intents store m vs :
  versions (service this) 0 = Response vs →
  find_version vs = Undefined →
  store !! LUIS_HASH_KVS_KEY = Some m →
  hash m = md5_hex this intents →
  (∀ st, kvs st = store →
         (isInSync this intents Undefined st).1 =
         Throw (TypeError "lastModifiedDateTime")) ∧
  ∀ fuel, (run_sync this intents fuel store).1 =
          Throw (TypeError "lastModifiedDateTime").
Proof.
  intros Hvs Hfind Hm Hh.
  assert (∀ st, kvs st = store →
            (isInSync this intents Undefined st).1 =
            Throw (TypeError "lastModifiedDateTime")) as Hthrow.
  { intros st <-. unfold isInSync, bind, kvs_get, lift, ret, throw.
    rewrite Hm. simpl. by rewrite bool_decide_true. }
  split; [done|]. intros fuel.
  assert (decision this intents store =
          Throw (TypeError "lastModifiedDateTime")) as Hdec.
  { unfold decision, remoteVersion. rewrite Hvs, Hfind. by apply Hthrow. }
  pose proof (sync_run_shape this intents fuel store) as H.
  destruct (run_sync this intents fuel store) as [o fin]. cbn [fst snd] in *.
  sync_cases H; try congruence;
    try (destruct Ri as ((Ri & _) & _); congruence);
    destruct Ri as (Ri & _); congruence.
Qed.

(** C2.  Fingerprint-write atomicity, where the code departs from it:
    the fingerprint is written on a run in which the training has
    failed.  When the import is answered, the training is queued, the
    answer to the first poll has a model whose [details] report [Fail],
    no model in progress and no [status] property, and the publish
    request and the second version lookup are answered, the failure
    goes unnoticed: the run publishes, ends normally with the line
    [Synced model], and its last request writes the fingerprint of the
    corpus to the store. *)
Theorem fingerprint_written_after_failed_training
    intents fuel store payload answer res models m d stamp :
  imports this intents store payload →
  import_ (service this) payload = Response answer →
  trainStart (service this) = Response res →
  ts_status res = Some "Queued" →
  trainStatus (service this) 0 = Response models →
  m ∈ models → details m = Some d → d_status d = Some "Fail" →
  (∀ m', m' ∈ models →
         status m' = None ∧
         ∃ d', details m' = Some d' ∧ d_status d' ≠ Some "InProgress") →
  publish (service this) = Response tt →
  get_lastModifiedDateTime (remoteVersion this 1) = Val stamp →
  let run := run_sync this intents (S fuel) store in
  run.1 = Ret tt ∧
  {| call := Publish (negb (isProduction this)); ok := true |}
    ∈ trace run.2 ∧
  last (trace run.2) =
    Some {| call := KvsSet LUIS_HASH_KVS_KEY
                      {| hash := md5_hex this intents; time := stamp |};
            ok := true |} ∧
  kvs run.2 =
    <[LUIS_HASH_KVS_KEY :=
        {| hash := md5_hex this intents; time := stamp |}]> store ∧
  kvs run.2 !! LUIS_HASH_KVS_KEY =
    Some {| hash := md5_hex this intents; time := stamp |} ∧
  last (log run.2) =
    Some {| level := Info;
            msg := "[NLU::Luis] Synced model [" +:+ answer +:+ "]" |}.
Proof.
  intros Himp Hres Hstart Hq Hpoll Hm Hd Hfail Hall Hpub Htime run.
  subst run.
  assert (∀ s, (train this (S fuel) s).1 = Ret tt) as Htrain.
  { intros s. apply (train_first_poll_exit this res); try done.
    intros s'. apply (poll_takes_success_exit this 0 models); try done.
    - intros ->. by apply elem_of_nil in Hm.
    - apply Forall_forall. intros x Hx.
      destruct (Hall x Hx) as (_ & d' & -> & _). by eexists.
    - apply Forall_forall. intros x Hx (d1 & Hd1 & Hs).
      destruct (Hall x Hx) as (_ & d' & Hd' & Hn). congruence.
    - apply Forall_forall. intros x Hx Hf. unfold failed in Hf.
      destruct (Hall x Hx) as (Hs & _). congruence. }
  pose proof (sync_run_shape this intents (S fuel) store) as H.
  destruct (run_sync this intents (S fuel) store) as [o fin].
  cbn [fst snd] in *.
  pose proof Himp as (Hdec & us & bes & info & Hv & Ha & _).
  sync_cases H; try congruence; try (by rewrite Htrain in Rtr).
  - pose proof (imports_unique this _ _ _ _ Himp Ri) as <-. congruence.
  - rewrite Rv in Htime. done.
  - pose proof Ri as (Ri' & Rok & _).
    pose proof (imports_unique this _ _ _ _ Himp Ri') as <-.
    assert (t = stamp) as -> by congruence.
    assert (result = answer) as -> by congruence.
    split; [done|]. split; [|split; [|split; [done|split; [|done]]]].
    + rewrite Rt. apply elem_of_app. left.
      destruct (train_run this (S fuel) s0) as (_ & tr & -> & _ & Hok).
      apply elem_of_app. right. by apply Hok.
    + rewrite Rt. by rewrite last_app.
    + rewrite Rk. by rewrite lookup_insert_eq.
Qed.

(** C3.  Training failure propagation, where the code departs from it:
    the loop looks for a failure in the [status] property of a model,
    while the service reports the state of a model (the one that the
    progress ratio reads) and its failure reason in [details].  When
    the answer to the first poll has a model whose [details] report
    [Fail], no model in progress and no [status] property, the loop
    takes its success exit, [train] publishes and returns. *)
Theorem failure_in_details_not_detected res models m d fuel st :
  trainStart (service this) = Response res →
  ts_status res = Some "Queued" →
  trainStatus (service this) 0 = Response models →
  m ∈ models → details m = Some d → d_status d = Some "Fail" →
  (∀ m', m' ∈ models →
         status m' = None ∧
         ∃ d', details m' = Some d' ∧ d_status d' ≠ Some "InProgress") →
  publish (service this) = Response tt →
  (poll this 0 st).1 = Ret Break ∧
  (train this (S fuel) st).1 = Ret tt ∧
  {| call := Publish (negb (isProduction this)); ok := true |}
    ∈ trace (train this (S fuel) st).2.
Proof.
  intros Hstart Hq Hpoll Hm Hd Hfail Hall Hpub.
  assert (filterInProgress models = Val []) as Hfilter.
  { clear Hm Hpoll. induction models as [|x xs IH]; [done|]. simpl.
    destruct (Hall x) as (_ & d' & -> & Hn); [apply elem_of_cons; by left|].
    rewrite IH; [|intros y Hy; apply Hall, elem_of_cons; by right].
    simpl. by rewrite bool_decide_false. }
  assert (findFail models = None) as Hfind.
  { clear Hm Hpoll Hfilter. unfold findFail.
    induction models as [|x xs IH]; [done|]. simpl.
    destruct (Hall x) as (-> & _); [apply elem_of_cons; by left|].
    rewrite bool_decide_false by done.
    apply IH. intros y Hy. apply Hall, elem_of_cons. by right. }
  assert (ge1 (ratio (length models) 0) = true) as Hge.
  { apply ge1_ratio. split; [|done]. destruct models; [|done].
    by apply elem_of_nil in Hm. }
  assert (∀ s, (poll this 0 s).1 = Ret Break) as Hbreak.
  { intros s. unfold poll, bind, request, lift, ret, logger.
    rewrite Hpoll. simpl. rewrite Hfilter. simpl. by rewrite Hfind, Hge. }
  split; [done|].
  assert ((train this (S fuel) st).1 = Ret tt) as Hret.
  { unfold train, request. rewrite Hstart. unfold bind at 1.
    rewrite Hq. simpl. unfold bind at 1. unfold bind at 1.
    specialize (Hbreak (emit {| call := StartTraining; ok := true |} st)).
    destruct (poll this 0 _) as [c s1]. simpl in Hbreak. subst c.
    unfold ret at 1. unfold bind. by rewrite Hpub. }
  split; [done|].
  by destruct (train_run this (S fuel) st) as (_ & t & -> & _ & Ht);
    destruct (Ht Hret) as (_ & _ & ?); apply elem_of_app; right.
Qed.

(** C4.  Entity rejection: when the corpus has a label whose type is
    not in the entity table, or whose entity has no provider name, the
    construction of the payload throws (the error of the first rejected
    label of the traversal).  No run of [sync] on that corpus issues the
    import request or changes the store, and a run that finds the model
    out of date ends with that error thrown to the caller. *)
Theorem entity_rejection intents label :
  label ∈ corpusLabels this intents →
  unknown_to_registry this label ∨ unsupported_by_provider this label →
  ∃ e, firstRejection this (corpusLabels this intents) = Some e ∧
       buildUtterances this intents = Err e ∧
       ∀ fuel store,
         (∀ ev, ev ∈ trace (run_sync this intents fuel store).2 →
                is_ImportVersion ev = false) ∧
         (decision this intents store = Ret false →
          (run_sync this intents fuel store).1 = Throw e) ∧
         kvs (run_sync this intents fuel store).2 = store.
Proof.
  intros Hin Hbad.
  assert (∃ e0, checkLabel this label = Err e0) as [e0 Hc].
  { unfold checkLabel.
    destruct Hbad as [Hu|(en & Hen & Hl)]; [rewrite Hu; eauto|].
    rewrite Hen. destruct (negb (String.prefix _ _)); [eauto|].
    destruct Hl as [->| ->]; simpl; eauto. }
  destruct (rejected_label_aborts this intents label e0 Hin Hc) as (e & Hf & Hb).
  exists e. split; [done|]. split; [done|]. intros fuel store.
  by apply construction_failure_run.
Qed.

(** C5.  Submission-failure handling, where the code departs from it:
    a rejected import is caught and the run ends normally, but when the
    error has no structured detail the logged message ends with
    [undefined]; the message of the error itself is not used. *)
Theorem generic_message_not_logged intents fuel store body err :
  imports this intents store body →
  import_ (service this) body = Rejected err →
  response_detail err = None →
  (run_sync this intents fuel store).1 = Ret tt ∧
  last (log (run_sync this intents fuel store).2) =
    Some {| level := Error;
            msg := "[NLU::Luis] Could not sync the model. Error = undefined" |}.
Proof.
  intros Himp Hrej Hnone.
  destruct (import_rejected_run this intents fuel store body err Himp Hrej)
    as [Hr Hl].
  split; [done|]. rewrite Hl. unfold sync_error_message. by rewrite Hnone.
Qed.

(** C6.  Version-lookup degradation, where the code departs from it: a
    rejected version lookup is not fatal, but [getRemoteVersion] returns
    the empty array, which is truthy, so a run that finds the model out
    of date issues the delete request. *)
Theorem rejected_lookup_deletes intents fuel store err :
  versions (service this) 0 = Rejected err →
  decision this intents store = Ret false →
  (∀ st, (getRemoteVersion this 0 st).1 = Ret EmptyArray) ∧
  truthy EmptyArray = true ∧
  {| call := DeleteVersion; ok := answered (delete_ (service this)) |}
    ∈ trace (run_sync this intents fuel store).2.
Proof.
  intros Hrej Hdec. split; [|split; [done|]].
  - intros st. unfold getRemoteVersion, try_catch, bind, request, logger, ret.
    by rewrite Hrej.
  - destruct (needs_update_trace this intents fuel store Hdec) as [rest ->].
    unfold deleted, remoteVersion. rewrite Hrej. simpl. elem_of_list.
Qed.

(** C7.  Training kickoff precondition: when the answer to the training
    request has a status other than [Queued], [train] throws the error
    that names the status, right after that request.  No run polls,
    publishes or writes to the store, and a run that started the
    training ends normally with the error line of the [catch] as its
    last log line. *)
Theorem training_must_be_queued res :
  trainStart (service this) = Response res →
  ts_status res ≠ Some "Queued" →
  let failure := new_Error ("Expected training to be Queued but was: "
                        +:+ str (ts_status res)) in
  (∀ fuel st,
     train this fuel st =
     (Throw failure, emit {| call := StartTraining; ok := true |} st)) ∧
  ∀ intents fuel store,
    let run := run_sync this intents fuel store in
    (∀ e, e ∈ trace run.2 →
          is_PollTraining e = false ∧ is_Publish e = false ∧
          is_KvsSet e = false) ∧
    kvs run.2 = store ∧
    ({| call := StartTraining; ok := true |} ∈ trace run.2 →
     run.1 = Ret tt ∧
     last (log run.2) =
       Some {| level := Error; msg := sync_error_message failure |}).
Proof.
  intros Hstart Hq failure.
  assert (∀ fuel st,
            train this fuel st =
            (Throw failure, emit {| call := StartTraining; ok := true |} st))
    as Htrain.
  { intros fuel st. unfold train, bind, request. rewrite Hstart.
    by rewrite bool_decide_false. }
  split; [done|]. intros intents fuel store run. subst run.
  assert (∀ e, e ∈ checked this ++ deleted this →
            is_PollTraining e = false ∧ is_Publish e = false ∧
            is_KvsSet e = false) as Hp.
  { intros e He. apply checked_deleted_prelude in He.
    by pose proof (prelude_call_kind e He) as (_ & ? & ? & ? & _). }
  assert ({| call := StartTraining; ok := true |}
            ∉ checked this ++ deleted this) as Hs.
  { intros He. apply checked_deleted_prelude in He.
    by pose proof (prelude_call_kind _ He) as (_ & _ & _ & _ & ?). }
  pose proof (sync_run_shape this intents fuel store) as H.
  destruct (run_sync this intents fuel store) as [o fin]. cbn [fst snd] in *.
  sync_cases H; try (rewrite Htrain in Rtr; simpl in Rtr; congruence);
    try rewrite Rt.
  - split; [|split; [done|]].
    + intros e He. apply Hp, elem_of_app. by left.
    + intros He. exfalso. apply Hs, elem_of_app. by left.
  - split; [|split; [done|]].
    + intros e He. apply Hp, elem_of_app. by left.
    + intros He. exfalso. apply Hs, elem_of_app. by left.
  - split; [|split; [done|]].
    + intros e He. by apply Hp.
    + intros He. by apply Hs in He.
  - split; [|split; [done|]].
    + intros e. rewrite app_assoc, elem_of_app, elem_of_cons, elem_of_nil.
      intros [He|[->|[]]]; [by apply Hp | done].
    + rewrite app_assoc, elem_of_app, elem_of_cons, elem_of_nil.
      intros [He|[[=]|[]]]. by apply Hs in He.
  - split; [|split; [done|]].
    + intros e. rewrite app_assoc, elem_of_app, !elem_of_cons, elem_of_nil.
      intros [He|[->|[->|[]]]]; [by apply Hp | done | done].
    + rewrite app_assoc, elem_of_app, !elem_of_cons, elem_of_nil.
      intros [He|[[=]|[[=]|[]]]]. by apply Hs in He.
  - rewrite Htrain in Rtr. simpl in Rtr. injection Rtr as <-.
    rewrite Htrain. simpl. destruct Ri as (_ & _ & _ & ->).
    split; [|split; [done|done]].
    intros e. rewrite !elem_of_app, !elem_of_cons, elem_of_nil.
    intros [[He|[He|[->|[->|[]]]]]|[->|[]]]; try done;
      apply Hp, elem_of_app; auto.
Qed.

(** C8.  Built-in entity deduplication: the [bing_entities] of every
    payload that a run imports are the provider names of the labels of
    the corpus, each one once, in the order of their first appearance in
    the traversal. *)
Theorem bing_entities_deduplicated intents fuel store body b :
  {| call := ImportVersion body; ok := b |}
    ∈ trace (run_sync this intents fuel store).2 →
  Val <$> referenced (b_utterances body) =
    checkLabel this <$> corpusLabels this intents ∧
  bing_entities body = first_appearances (referenced (b_utterances body)) ∧
  NoDup (bing_entities body) ∧
  (∀ n, n ∈ bing_entities body ↔ n ∈ referenced (b_utterances body)).
Proof.
  intros Hev.
  destruct (sync_requests this intents fuel store _ Hev)
    as [H|[(body' & Himp & Hc)|[H|[t [=]]]]].
  { by apply prelude_call_kind in H as (? & _). }
  2:{ by apply (training_call_kind this) in H as (? & _). }
  simpl in Hc. injection Hc as ->.
  destruct Himp as (_ & us & bes & info & Hval & _ & ->). simpl.
  pose proof (buildUtterances_inv this intents us bes Hval) as ->.
  split; [symmetry; by eapply buildUtterances_names|].
  split; [done|]. split; [apply NoDup_first_appearances|].
  intros n. apply elem_of_first_appearances.
Qed.

(** C9.  The native prefix: a label whose type is in the entity table
    with a provider name, but does not start with [@native.], is
    rejected with the unknown-entity error.  A corpus that contains it
    cannot be turned into a payload, a run that finds the model out of
    date ends with the construction error thrown, and that error is the
    unknown-entity error of the label when no earlier label of the
    traversal is rejected. *)
Theorem native_prefix_required label en n :
  Entities this !! type label = Some en →
  luis en = Some n → n ≠ "" →
  String.prefix "@native." (type label) = false →
  (∀ s, onLabel this label s = Err (unknown_entity (type label))) ∧
  ∀ intents,
    label ∈ corpusLabels this intents →
    (∃ e, buildUtterances this intents = Err e ∧
          ∀ fuel store,
            (∀ ev, ev ∈ trace (run_sync this intents fuel store).2 →
                   is_ImportVersion ev = false) ∧
            (decision this intents store = Ret false →
             (run_sync this intents fuel store).1 = Throw e)) ∧
    (∀ pre post,
       corpusLabels this intents = pre ++ label :: post →
       Forall (λ l, ∃ m, checkLabel this l = Val m) pre →
       buildUtterances this intents = Err (unknown_entity (type label))).
Proof.
  intros Hen Hl Hn Hp.
  assert (checkLabel this label = Err (unknown_entity (type label))) as Hc.
  { unfold checkLabel. by rewrite Hen, Hp. }
  split.
  { intros [bes ents]. by rewrite onLabel_checkLabel, Hc. }
  intros intents Hin. split.
  - destruct (rejected_label_aborts this intents label _ Hin Hc)
      as (e & Hf & Hb).
    exists e. split; [done|]. intros fuel store.
    destruct (construction_failure_run this intents e fuel store Hb)
      as (? & ? & _).
    done.
  - intros pre post Heq Hpre.
    pose proof (buildUtterances_outcome this intents) as H.
    by rewrite Heq, (firstRejection_first this pre label post _ Hpre Hc) in H.
Qed.


End Claims.

(** ** The statements on the small bot *)

Lemma isInSync_throws_without_remote_version_witness :
  (isInSync (ex_provider ex_service) ex_greet Undefined (initial ex_store)).1 =
    Throw (TypeError "lastModifiedDateTime") ∧
  (run_sync (ex_provider ex_service) ex_greet 3 ex_store).1 =
    Throw (TypeError "lastModifiedDateTime").
Proof.
  destruct (isInSync_throws_without_remote_version (ex_provider ex_service)
              ex_greet ex_store
              {| hash := ex_digest ex_greet; time := Some "2018-01-01" |} [])
    as [H1 H2]; [reflexivity | reflexivity | by vm_compute | reflexivity |].
  split; [by apply H1 | apply H2].
Defined.

Lemma fingerprint_written_after_failed_training_witness :
  (run_sync (ex_provider ex_training_fails) ex_greet 1 ∅).1 = Ret tt ∧
  {| call := Publish true; ok := true |}
    ∈ trace (run_sync (ex_provider ex_training_fails) ex_greet 1 ∅).2 ∧
  kvs (run_sync (ex_provider ex_training_fails) ex_greet 1 ∅).2
    !! LUIS_HASH_KVS_KEY =
  Some {| hash := ex_digest ex_greet; time := Some "2018-01-01" |}.
Proof.
  destruct (fingerprint_written_after_failed_training
              (ex_provider ex_training_fails) ex_greet 0 ∅ ex_greet_body
              "1.0" {| ts_status := Some "Queued" |}
              [ex_model "Fail" (Some "no examples")]
              (ex_model "Fail" (Some "no examples"))
              {| d_status := Some "Fail"; failureReason := Some "no examples" |}
              (Some "2018-01-01"))
    as (H1 & H2 & _ & _ & H5 & _); try reflexivity.
  - split; [by vm_compute|]. eexists _, _, ex_info.
    split; [by vm_compute|]. split; reflexivity.
  - elem_of_list.
  - intros m' Hm. apply list_elem_of_singleton in Hm as ->.
    split; [reflexivity|]. eexists. split; [reflexivity|]. discriminate.
  - split; [exact H1|]. split; [exact H2 | exact H5].
Defined.

Lemma failure_in_details_not_detected_witness :
  (poll (ex_provider ex_training_fails) 0 (initial ∅)).1 = Ret Break ∧
  (train (ex_provider ex_training_fails) 1 (initial ∅)).1 = Ret tt ∧
  {| call := Publish true; ok := true |}
    ∈ trace (train (ex_provider ex_training_fails) 1 (initial ∅)).2.
Proof.
  apply (failure_in_details_not_detected (ex_provider ex_training_fails)
           {| ts_status := Some "Queued" |}
           [ex_model "Fail" (Some "no examples")]
           (ex_model "Fail" (Some "no examples"))
           {| d_status := Some "Fail"; failureReason := Some "no examples" |}
           0 (initial ∅)); try reflexivity.
  - elem_of_list.
  - intros m' Hm. apply list_elem_of_singleton in Hm as ->.
    split; [reflexivity|]. eexists. split; [reflexivity|]. discriminate.
Defined.

Lemma entity_rejection_witness :
  ∃ e, firstRejection (ex_provider ex_service)
         (corpusLabels (ex_provider ex_service) ex_call) = Some e ∧
       buildUtterances (ex_provider ex_service) ex_call = Err e ∧
       ∀ fuel store,
         (∀ ev, ev ∈ trace (run_sync (ex_provider ex_service) ex_call
                              fuel store).2 →
                is_ImportVersion ev = false) ∧
         (decision (ex_provider ex_service) ex_call store = Ret false →
          (run_sync (ex_provider ex_service) ex_call fuel store).1 = Throw e) ∧
         kvs (run_sync (ex_provider ex_service) ex_call fuel store).2 = store.
Proof.
  apply (entity_rejection (ex_provider ex_service) ex_call
           {| type := "@native.person"; start := 5; end_ := 8 |}).
  - vm_compute. elem_of_list.
  - left. vm_compute. reflexivity.
Defined.

Lemma generic_message_not_logged_witness :
  (run_sync (ex_provider ex_import_rejected) ex_greet 3 ∅).1 = Ret tt ∧
  last (log (run_sync (ex_provider ex_import_rejected) ex_greet 3 ∅).2) =
    Some {| level := Error;
            msg := "[NLU::Luis] Could not sync the model. Error = undefined" |}.
Proof.
  apply (generic_message_not_logged (ex_provider ex_import_rejected)
           ex_greet 3 ∅ ex_greet_body (new_Error "Network Error")).
  - split; [by vm_compute|]. eexists _, _, ex_info.
    split; [by vm_compute|]. split; reflexivity.
  - reflexivity.
  - reflexivity.
Defined.

Lemma rejected_lookup_deletes_witness :
  {| call := DeleteVersion; ok := true |}
    ∈ trace (run_sync (ex_provider ex_lookup_rejected) ex_greet 5 ∅).2.
Proof.
  apply (rejected_lookup_deletes (ex_provider ex_lookup_rejected) ex_greet 5 ∅
           (new_Error "Network Error")).
  - reflexivity.
  - by vm_compute.
Defined.

Lemma training_must_be_queued_witness :
  train (ex_provider ex_not_queued) 5 (initial ∅) =
    (Throw (new_Error "Expected training to be Queued but was: InProgress"),
     emit {| call := StartTraining; ok := true |} (initial ∅)).
Proof.
  apply (training_must_be_queued (ex_provider ex_not_queued)
           {| ts_status := Some "InProgress" |}).
  - reflexivity.
  - discriminate.
Defined.

Lemma bing_entities_deduplicated_witness :
  bing_entities ex_contact_body =
    first_appearances (referenced (b_utterances ex_contact_body)) ∧
  NoDup (bing_entities ex_contact_body).
Proof.
  destruct (bing_entities_deduplicated (ex_provider ex_service) ex_contact 5 ∅
              ex_contact_body true) as (_ & H & Hn & _).
  - vm_compute. elem_of_list.
  - split; [exact H | exact Hn].
Defined.

Lemma native_prefix_required_witness :
  buildUtterances (ex_provider ex_service) ex_paint =
    Err (unknown_entity "color").
Proof.
  destruct (native_prefix_required (ex_provider ex_service)
              {| type := "color"; start := 9; end_ := 12 |}
              {| luis := Some "color" |} "color") as [_ H].
  - by vm_compute.
  - reflexivity.
  - discriminate.
  - reflexivity.
  - destruct (H ex_paint) as [_ H'].
    + vm_compute. elem_of_list.
    + apply (H' [] []); [reflexivity | constructor].
Defined.


(** * Further properties *)

(** ** The decision, the store and the fingerprint *)

Section Decided.
Context {EntityDeclaration : Type} (this : LuisProvider EntityDeclaration).

(** A run that finds the model up to date stops there. *)
Lemma decision_true_run intents fuel store :
  decision this intents store = Ret true →
  (run_sync this intents fuel store).1 = Ret tt ∧
  kvs (run_sync this intents fuel store).2 = store ∧
  trace (run_sync this intents fuel store).2 = checked this ∧
  last (log (run_sync this intents fuel store).2) =
    Some {| level := Debug; msg := "[NLU::Luis] Model is up to date" |}.
Proof.
  intros Hdec.
  pose proof (sync_run_shape this intents fuel store) as H.
  destruct (run_sync this intents fuel store) as [o fin]. cbn [fst snd] in *.
  sync_cases H; try congruence; try done;
    try (destruct Ri as (Ri & _); congruence);
    destruct Ri as ((Ri & _) & _); congruence.
Qed.

(** The decision of [isInSync], read from the store and from the remote
    version. *)
Lemma decision_table intents store :
  decision this intents store =
  match store !! LUIS_HASH_KVS_KEY with
  | None => Ret false
  | Some m =>
      if bool_decide (hash m = md5_hex this intents) then
        match get_lastModifiedDateTime (remoteVersion this 0) with
        | Val t => Ret (bool_decide (time m = t))
        | Err e => Throw e
        end
      else Ret false
  end.
Proof.
  unfold decision, isInSync, bind, kvs_get, lift, ret, throw. simpl.
  destruct (store !! LUIS_HASH_KVS_KEY) as [m|]; [|done].
  case_bool_decide; [|done].
  by destruct (get_lastModifiedDateTime (remoteVersion this 0)).
Qed.

(** The fingerprint that a run writes holds the timestamp of the
    version read after the training. *)
Lemma sync_recorded_time intents fuel store :
  (∃ e, e ∈ trace (run_sync this intents fuel store).2 ∧ is_KvsSet e = true) →
  ∃ t, get_lastModifiedDateTime (remoteVersion this 1) = Val t ∧
       kvs (run_sync this intents fuel store).2 =
         <[LUIS_HASH_KVS_KEY :=
             {| hash := md5_hex this intents; time := t |}]> store.
Proof.
  intros (e & He & Hs).
  pose proof (sync_run_shape this intents fuel store) as H.
  destruct (run_sync this intents fuel store) as [o fin]. cbn [fst snd] in *.
  assert (∀ x, x ∈ checked this ++ deleted this → is_KvsSet x = false) as Hp.
  { intros x Hx. apply checked_deleted_prelude in Hx.
    by apply prelude_call_kind in Hx as (_ & ? & _). }
  assert (∀ s0 body result x,
            imported this intents store body result s0 →
            x ∈ trace (train this fuel s0).2 → is_KvsSet x = false) as Htrain.
  { intros s0 body result x Hi Hx.
    destruct (imported_train_trace this _ _ _ _ _ _ _ Hi Hx) as [Hc|[->|Hc]].
    - by apply prelude_call_kind in Hc as (_ & ? & _).
    - done.
    - by apply (training_call_kind this) in Hc as (_ & ? & _). }
  assert (is_KvsSet e = false → ∃ t : option string,
            get_lastModifiedDateTime (remoteVersion this 1) = Val t ∧
            kvs fin = <[LUIS_HASH_KVS_KEY :=
                          {| hash := md5_hex this intents; time := t |}]> store)
    as Hex by (intros Hf; rewrite Hf in Hs; done).
  sync_cases H; try rewrite Rt in He.
  - apply Hex, Hp, elem_of_app. by left.
  - apply Hex, Hp, elem_of_app. by left.
  - by apply Hex, Hp.
  - rewrite app_assoc, elem_of_app, elem_of_cons, elem_of_nil in He.
    destruct He as [He|[->|[]]]; [by apply Hex, Hp | done].
  - rewrite app_assoc, elem_of_app, !elem_of_cons, elem_of_nil in He.
    destruct He as [He|[->|[->|[]]]]; [by apply Hex, Hp | done | done].
  - apply Hex. by eapply Htrain.
  - apply Hex. by eapply Htrain.
  - rewrite elem_of_app, elem_of_cons, elem_of_nil in He.
    destruct He as [He|[->|[]]]; [apply Hex; by eapply Htrain | done].
  - by exists t.
Qed.

End Decided.

Section Fingerprint.
Context {EntityDeclaration : Type} (this : LuisProvider EntityDeclaration).

(** X1.  Idempotence: when the store holds a fingerprint with the digest
    of the corpus and the timestamp of the remote version, a run makes
    the version lookup and the read of the store and nothing else; it
    returns normally and leaves the store as it was. *)
Theorem up_to_date_run_reads_only intents fuel store m t :
  store !! LUIS_HASH_KVS_KEY = Some m →
  hash m = md5_hex this intents →
  get_lastModifiedDateTime (remoteVersion this 0) = Val t →
  time m = t →
  (run_sync this intents fuel store).1 = Ret tt ∧
  kvs (run_sync this intents fuel store).2 = store ∧
  trace (run_sync this intents fuel store).2 =
    [{| call := GetVersions; ok := answered (versions (service this) 0) |};
     {| call := KvsGet LUIS_HASH_KVS_KEY; ok := true |}] ∧
  last (log (run_sync this intents fuel store).2) =
    Some {| level := Debug; msg := "[NLU::Luis] Model is up to date" |}.
Proof.
  intros Hm Hh Hv Ht. apply decision_true_run.
  rewrite decision_table, Hm, Hv.
  by rewrite !bool_decide_true.
Qed.

(** X2.  Round trip of the fingerprint: after a run that wrote the
    fingerprint, a run on the same corpus whose version lookup finds
    what the previous run read back is up to date; it makes no request
    but the lookup and leaves the store as it is. *)
Theorem recorded_fingerprint_is_up_to_date intents fuel store
    (next : LuisProvider EntityDeclaration) fuel' :
  (∃ e, e ∈ trace (run_sync this intents fuel store).2 ∧ is_KvsSet e = true) →
  md5_hex next intents = md5_hex this intents →
  remoteVersion next 0 = remoteVersion this 1 →
  (run_sync next intents fuel' (kvs (run_sync this intents fuel store).2)).1
    = Ret tt ∧
  kvs (run_sync next intents fuel' (kvs (run_sync this intents fuel store).2)).2
    = kvs (run_sync this intents fuel store).2 ∧
  trace (run_sync next intents fuel' (kvs (run_sync this intents fuel store).2)).2
    = [{| call := GetVersions; ok := answered (versions (service next) 0) |};
       {| call := KvsGet LUIS_HASH_KVS_KEY; ok := true |}].
Proof.
  intros Hset Hh Hv.
  destruct (sync_recorded_time this intents fuel store Hset) as (t & Ht & ->).
  destruct (decision_true_run next intents fuel'
              (<[LUIS_HASH_KVS_KEY :=
                   {| hash := md5_hex this intents; time := t |}]> store))
    as (? & ? & ? & _); [|done].
  rewrite decision_table, lookup_insert_eq, Hv, Ht. simpl.
  by rewrite !bool_decide_true.
Qed.

(** X3.  Change detection: a run finds the model out of date exactly
    when every fingerprint in the store has another digest than the
    corpus, or another timestamp than the remote version (in particular
    when the store has no fingerprint); it then goes on with the
    deletion of a truthy remote version. *)
Theorem sync_needed_iff intents store :
  (decision this intents store = Ret false ↔
   ∀ m, store !! LUIS_HASH_KVS_KEY = Some m →
        hash m ≠ md5_hex this intents ∨
        ∃ t, get_lastModifiedDateTime (remoteVersion this 0) = Val t ∧
             time m ≠ t) ∧
  (decision this intents store = Ret false →
   ∀ fuel, ∃ rest,
     trace (run_sync this intents fuel store).2 =
     [{| call := GetVersions; ok := answered (versions (service this) 0) |};
      {| call := KvsGet LUIS_HASH_KVS_KEY; ok := true |}] ++
     (if truthy (remoteVersion this 0)
      then [{| call := DeleteVersion;
               ok := answered (delete_ (service this)) |}]
      else []) ++ rest).
Proof.
  split.
  - rewrite decision_table.
    destruct (store !! LUIS_HASH_KVS_KEY) as [m|]; [|by split].
    case_bool_decide as Hh.
    + destruct (get_lastModifiedDateTime (remoteVersion this 0)) as [t|e].
      * case_bool_decide as Ht; split; try done.
        -- intros H. destruct (H m eq_refl) as [?|(t' & [= <-] & ?)]; done.
        -- intros _ m' [= <-]. right. by exists t.
      * split; [done|]. intros H.
        destruct (H m eq_refl) as [?|(t' & [=] & ?)]; done.
    + split; [|done]. intros _ m' [= <-]. by left.
  - intros Hdec fuel. apply (needs_update_trace this intents fuel store Hdec).
Qed.

(** X4.  The fingerprint that a run writes holds the digest of the
    corpus and the timestamp of the version read back after the
    training; when that lookup is rejected, or the version has no
    timestamp, the fingerprint has no timestamp. *)
Theorem fingerprint_holds_reread_timestamp intents fuel store :
  (∃ e, e ∈ trace (run_sync this intents fuel store).2 ∧ is_KvsSet e = true) →
  ∃ t, kvs (run_sync this intents fuel store).2 !! LUIS_HASH_KVS_KEY =
         Some {| hash := md5_hex this intents; time := t |} ∧
       get_lastModifiedDateTime (remoteVersion this 1) = Val t ∧
       (∀ err, versions (service this) 1 = Rejected err → t = None) ∧
       (∀ vs v, versions (service this) 1 = Response vs →
                find_version vs = Found v → t = lastModifiedDateTime v).
Proof.
  intros Hset.
  destruct (sync_recorded_time this intents fuel store Hset) as (t & Ht & ->).
  exists t. split; [apply lookup_insert_eq|]. split; [done|].
  unfold remoteVersion in Ht. split.
  - intros err Hr. rewrite Hr in Ht. by injection Ht.
  - intros vs v Hr Hf. rewrite Hr, Hf in Ht. by injection Ht.
Qed.

(** X5.  A run never touches another key of the store than the one of
    the fingerprint. *)
Theorem other_keys_untouched intents fuel store k :
  k ≠ LUIS_HASH_KVS_KEY →
  kvs (run_sync this intents fuel store).2 !! k = store !! k.
Proof.
  intros Hk.
  destruct (sync_store this intents fuel store)
    as [[-> _]|(_ & s0 & body & result & t & _ & _ & -> & _)]; [done|].
  by rewrite lookup_insert_ne.
Qed.

End Fingerprint.

Section Store_writes.
Context {EntityDeclaration : Type} (this : LuisProvider EntityDeclaration).

(** X17.  The store is written at most once, and last: a run writes to
    the store at most once.  When it does, the import, the start of the
    training and the publish request were answered, no request of the
    import or of the training was rejected, [train] returned, and the
    write of the fingerprint is the last request of the run.  When the
    import or a request of the training is rejected, or [train] does
    not return, the store is left as it was. *)
Theorem store_written_once_after_train_returns intents fuel store :
  let run := run_sync this intents fuel store in
  (length (filter (λ e, is_KvsSet e = true) (trace run.2)) ≤ 1)%nat ∧
  ((∃ e, e ∈ trace run.2 ∧ is_KvsSet e = true) ∨ kvs run.2 ≠ store →
   run.1 = Ret tt ∧
   (∃ body result,
      import_ (service this) body = Response result ∧
      {| call := ImportVersion body; ok := true |} ∈ trace run.2) ∧
   (∀ st, (train this fuel st).1 = Ret tt) ∧
   {| call := StartTraining; ok := true |} ∈ trace run.2 ∧
   {| call := Publish (negb (isProduction this)); ok := true |}
     ∈ trace run.2 ∧
   (∀ e, e ∈ trace run.2 →
         is_ImportVersion e = true ∨ training_call this e → ok e = true) ∧
   ∃ t, last (trace run.2) =
          Some {| call := KvsSet LUIS_HASH_KVS_KEY
                            {| hash := md5_hex this intents; time := t |};
                  ok := true |} ∧
        kvs run.2 =
          <[LUIS_HASH_KVS_KEY :=
              {| hash := md5_hex this intents; time := t |}]> store) ∧
  ((∃ e, e ∈ trace run.2 ∧ ok e = false ∧
         (is_ImportVersion e = true ∨ training_call this e)) ∨
   (∃ st, (train this fuel st).1 ≠ Ret tt) →
   kvs run.2 = store ∧ ∀ e, e ∈ trace run.2 → is_KvsSet e = false).
Proof.
  intros run. subst run.
  destruct (sync_store this intents fuel store)
    as [[Hk Hno]|(Hr & s0 & body & result & t & Hi & Htr & Hk & Ht)].
  { split; [rewrite filter_none; [simpl; lia | done]|]. split; [|done].
    intros [(e & He & Hs)|Hne]; [|done]. rewrite (Hno e He) in Hs. done. }
  destruct (imported_train_run this _ _ _ _ _ fuel Hi)
    as (tt' & Htt & Hc & _ & Hok).
  destruct (Hok Htr) as (Hall & Hstart & Hpub). clear Hok.
  assert (∀ e, e ∈ trace (run_sync this intents fuel store).2 →
            is_ImportVersion e = true ∨ training_call this e → ok e = true)
    as Hoks.
  { intros e He Hkind. rewrite Ht, Htt in He.
    rewrite !elem_of_app, !elem_of_cons, elem_of_nil in He.
    destruct He as [[He|[He|[[->|[->|[]]]|He]]]|[->|[->|[]]]]; try done.
    - assert (prelude_call e) as Hp
        by (apply (checked_deleted_prelude this), elem_of_app; by left).
      destruct Hkind as [Hkind|Hkind].
      + apply prelude_call_kind in Hp as (Hf & _). congruence.
      + by apply (prelude_not_training this) in Hp.
    - assert (prelude_call e) as Hp
        by (apply (checked_deleted_prelude this), elem_of_app; by right).
      destruct Hkind as [Hkind|Hkind].
      + apply prelude_call_kind in Hp as (Hf & _). congruence.
      + by apply (prelude_not_training this) in Hp.
    - by eapply Forall_forall in Hall.
    - destruct Hkind as [Hkind|Hkind]; [done|].
      unfold training_call in Hkind. simpl in Hkind. destruct_or!; done. }
  split; [|split].
  - rewrite Ht, filter_app, filter_none.
    { rewrite filter_cons, decide_False by done.
      rewrite filter_cons, decide_True by done. simpl. lia. }
    intros e He.
    destruct (imported_train_trace this _ _ _ _ _ _ _ Hi He) as [H|[->|H]].
    + by apply prelude_call_kind in H as (_ & ? & _).
    + done.
    + by apply (training_call_kind this) in H as (_ & ? & _).
  - intros _. split; [done|]. split; [|split; [|split; [|split; [|split]]]].
    + exists body, result. split; [by destruct Hi as (_ & ? & _)|].
      rewrite Ht, Htt, !elem_of_app, !elem_of_cons. left. right. right.
      left. right. by left.
    + intros st. by rewrite (train_outcome this fuel st s0).
    + rewrite Ht, Htt, !elem_of_app. left. by repeat right.
    + rewrite Ht, Htt, !elem_of_app. left. by repeat right.
    + done.
    + exists t. split; [|done]. rewrite Ht.
      by rewrite last_app.
  - intros [(e & He & Hf & Hkind)|[st Hst]].
    + rewrite (Hoks e He Hkind) in Hf. done.
    + by rewrite (train_outcome this fuel st s0) in Hst.
Qed.

End Store_writes.

(** ** The deletion and the errors that leave [sync] *)

Section Before_import.
Context {EntityDeclaration : Type} (this : LuisProvider EntityDeclaration).

(** The requests of a run: the lookup and the read of the store, then,
    when the model is out of date, the deletion of a truthy remote
    version and requests that are no deletions. *)
Lemma run_trace_form intents fuel store :
  (decision this intents store ≠ Ret false ∧
   trace (run_sync this intents fuel store).2 = checked this) ∨
  (decision this intents store = Ret false ∧
   ∃ rest, trace (run_sync this intents fuel store).2 =
             checked this ++ deleted this ++ rest ∧
           ∀ e, e ∈ rest → is_DeleteVersion e = false).
Proof.
  pose proof (sync_run_shape this intents fuel store) as H.
  destruct (run_sync this intents fuel store) as [o fin]. cbn [fst snd] in *.
  assert (∀ body, imports this intents store body →
            decision this intents store = Ret false) as Hdec by (by intros ? []).
  assert (∀ s0 body result,
            imported this intents store body result s0 →
            ∃ t, trace (train this fuel s0).2 =
                   checked this ++ deleted this ++
                   [{| call := GetAppInfo; ok := true |};
                    {| call := ImportVersion body; ok := true |}] ++ t ∧
                 ∀ e, e ∈ t → is_DeleteVersion e = false) as Htrain.
  { intros s0 body result Hi.
    destruct (imported_train_run this _ _ _ _ _ fuel Hi) as (t & Ht & Hc & _).
    exists t. split; [done|]. intros e He.
    eapply Forall_forall in Hc; [|done].
    by apply (training_call_kind this) in Hc as (_ & _ & ?). }
  sync_cases H.
  - left. split; [congruence | done].
  - left. split; [congruence | done].
  - right. split; [done|]. exists []. rewrite app_nil_r. split; [done|].
    by intros e He%elem_of_nil.
  - right. split; [done|]. eexists. split; [done|].
    by intros e ->%list_elem_of_singleton.
  - right. split; [by apply Hdec in Ri|]. eexists. split; [done|].
    intros e. rewrite !elem_of_cons, elem_of_nil. by intros [->|[->|[]]].
  - right. split; [destruct Ri as [Ri _]; by apply Hdec in Ri|].
    destruct (Htrain _ _ _ Ri) as (t & Ht & Hn). rewrite Rt, Ht.
    eexists. split; [done|]. intros e.
    rewrite elem_of_app, !elem_of_cons, elem_of_nil.
    intros [[->|[->|[]]]|He]; auto.
  - right. split; [destruct Ri as [Ri _]; by apply Hdec in Ri|].
    destruct (Htrain _ _ _ Ri) as (t & Ht & Hn). rewrite Ht.
    eexists. split; [done|]. intros e.
    rewrite elem_of_app, !elem_of_cons, elem_of_nil.
    intros [[->|[->|[]]]|He]; auto.
  - right. split; [destruct Ri as [Ri _]; by apply Hdec in Ri|].
    destruct (Htrain _ _ _ Ri) as (t & Ht & Hn).
    rewrite Rt, Ht, <- !app_assoc. eexists. split; [done|]. intros e.
    rewrite !elem_of_app, !elem_of_cons, elem_of_nil.
    intros [[->|[->|[]]]|[He|[->|[]]]]; auto.
  - right. split; [destruct Ri as [Ri _]; by apply Hdec in Ri|].
    destruct (Htrain _ _ _ Ri) as (t' & Ht & Hn).
    rewrite Rt, Ht, <- !app_assoc. eexists. split; [done|]. intros e.
    rewrite !elem_of_app, !elem_of_cons, elem_of_nil.
    intros [[->|[->|[]]]|[He|[->|[->|[]]]]]; auto.
Qed.

End Before_import.

Section Deletion_and_errors.
Context {EntityDeclaration : Type} (this : LuisProvider EntityDeclaration).

(** X6.  The deletion of the old version: [deleteVersion] returns
    normally whatever the answer to its request is, and leaves the store
    alone.  A run makes at most one delete request; it makes one exactly
    when it finds the model out of date and the remote version is
    truthy, and then right after the read of the store, before any other
    request. *)
Theorem delete_once_when_out_of_date intents fuel store :
  (∀ st, (deleteVersion this st).1 = Ret tt ∧
         kvs (deleteVersion this st).2 = kvs st) ∧
  (length (filter (λ e, is_DeleteVersion e = true)
             (trace (run_sync this intents fuel store).2)) ≤ 1)%nat ∧
  ((∃ e, e ∈ trace (run_sync this intents fuel store).2 ∧
         is_DeleteVersion e = true) ↔
   decision this intents store = Ret false ∧
   truthy (remoteVersion this 0) = true) ∧
  (∀ pre e post,
     trace (run_sync this intents fuel store).2 = pre ++ e :: post →
     is_DeleteVersion e = true →
     pre = [{| call := GetVersions;
               ok := answered (versions (service this) 0) |};
            {| call := KvsGet LUIS_HASH_KVS_KEY; ok := true |}]).
Proof.
  split.
  { intros st. destruct (deleteVersion_step this st) as (s1 & -> & Hk & _).
    done. }
  assert (filter (λ e, is_DeleteVersion e = true) (checked this) = [])
    as Hchecked by done.
  destruct (run_trace_form this intents fuel store)
    as [[Hdec ->]|(Hdec & rest & -> & Hrest)].
  { rewrite Hchecked. split; [simpl; lia|]. split; [split|].
    - intros (e & He & Hd). unfold checked in He.
      rewrite !elem_of_cons, elem_of_nil in He. by destruct He as [->|[->|[]]].
    - by intros [? _].
    - intros pre e post Heq Hd. exfalso.
      assert (e ∈ checked this) as He
        by (rewrite Heq, elem_of_app, elem_of_cons; auto).
      unfold checked in He.
      rewrite !elem_of_cons, elem_of_nil in He. by destruct He as [->|[->|[]]]. }
  rewrite !filter_app, Hchecked, (filter_none _ rest Hrest), app_nil_r.
  unfold deleted. destruct (truthy (remoteVersion this 0)); simpl.
  - split; [vm_compute; lia|].
    split; [split; [done|]|].
    + intros _.
      exists {| call := DeleteVersion; ok := answered (delete_ (service this)) |}.
      split; [elem_of_list | done].
    + intros pre e post Heq Hd.
      destruct pre as [|e0 [|e1 [|e2 pre]]]; simplify_eq/=; try done.
      exfalso. rewrite Hrest in Hd; [done|].
      rewrite elem_of_app, elem_of_cons. auto.
  - split; [lia|]. split; [split|].
    + intros (e & He & Hd). rewrite !elem_of_cons in He.
      destruct He as [->|[->|He]]; try done. by rewrite (Hrest e He) in Hd.
    + by intros [_ ?].
    + intros pre e post Heq Hd. exfalso.
      assert (e ∈ checked this ++ rest) as He.
      { unfold checked. simpl. rewrite Heq, elem_of_app, elem_of_cons. auto. }
      unfold checked in He.
      rewrite elem_of_app, !elem_of_cons, elem_of_nil in He.
      destruct He as [[->|[->|[]]]|He]; try done.
      by rewrite (Hrest e He) in Hd.
Qed.

(** X7.  The application is not found: when the model is out of date,
    the payload can be built and the request for the application is
    rejected, the run ends with the error [Could not find app] thrown to
    the caller, whatever the rejection was.  Nothing is imported and the
    store is as before, but a truthy remote version has been deleted. *)
Theorem app_not_found_aborts intents fuel store r rejection :
  decision this intents store = Ret false →
  buildUtterances this intents = Val r →
  appInfo (service this) = Rejected rejection →
  (run_sync this intents fuel store).1 =
    Throw (new_Error ("[NLU::Luis] Could not find app " +:+ appId this)) ∧
  kvs (run_sync this intents fuel store).2 = store ∧
  trace (run_sync this intents fuel store).2 =
    [{| call := GetVersions; ok := answered (versions (service this) 0) |};
     {| call := KvsGet LUIS_HASH_KVS_KEY; ok := true |}] ++
    (if truthy (remoteVersion this 0)
     then [{| call := DeleteVersion; ok := answered (delete_ (service this)) |}]
     else []) ++
    [{| call := GetAppInfo; ok := false |}].
Proof.
  intros Hdec Hval Hrej.
  assert (∀ body, ¬ imports this intents store body) as Hno.
  { intros body (_ & us & bes & info & _ & Ha & _). congruence. }
  pose proof (sync_run_shape this intents fuel store) as H.
  destruct (run_sync this intents fuel store) as [o fin]. cbn [fst snd] in *.
  sync_cases H; try congruence; try done; try (by apply Hno in Ri);
    destruct Ri as [Ri _]; by apply Hno in Ri.
Qed.

(** X8.  The errors thrown to the caller are raised before the import:
    a run that ends with an error thrown has made no import, training,
    poll or publish request and no write to the store; each of its
    requests is a version lookup, the read of the store, the deletion
    or the request for the application, and the store is as before.
    Once a run reaches the import request, no error is thrown to the
    caller, whatever the answers to the import, the training, the
    polls, the publish request and the second version lookup. *)
Theorem thrown_errors_precede_import intents fuel store :
  let run := run_sync this intents fuel store in
  (∀ e, run.1 = Throw e →
     kvs run.2 = store ∧
     ∀ ev, ev ∈ trace run.2 →
       prelude_call ev ∧
       is_ImportVersion ev = false ∧ is_StartTraining ev = false ∧
       is_PollTraining ev = false ∧ is_Publish ev = false ∧
       is_KvsSet ev = false) ∧
  ((∃ ev, ev ∈ trace run.2 ∧ is_ImportVersion ev = true) →
   ∀ e, run.1 ≠ Throw e) ∧
  (∀ payload, imports this intents store payload → ∀ e, run.1 ≠ Throw e).
Proof.
  intros run. subst run.
  assert (∀ e, (run_sync this intents fuel store).1 = Throw e →
     kvs (run_sync this intents fuel store).2 = store ∧
     ∀ ev, ev ∈ trace (run_sync this intents fuel store).2 →
           prelude_call ev) as Hpre.
  { intros e Hthrow.
    pose proof (sync_run_shape this intents fuel store) as H.
    destruct (run_sync this intents fuel store) as [o fin].
    cbn [fst snd] in *.
    sync_cases H; try done; (split; [done|]); intros ev; rewrite Rt.
    - intros Hev. apply (checked_deleted_prelude this), elem_of_app.
      by left.
    - apply (checked_deleted_prelude this).
    - rewrite app_assoc, elem_of_app.
      intros [Hev|Hev]; [by apply (checked_deleted_prelude this)|].
      apply list_elem_of_singleton in Hev as ->. by repeat right. }
  split; [|split].
  - intros e Hthrow. destruct (Hpre e Hthrow) as [Hk Hall].
    split; [done|]. intros ev Hev. specialize (Hall ev Hev).
    split; [done|].
    apply prelude_call_kind in Hall as (? & ? & ? & ? & ?). done.
  - intros (ev & Hev & Himp) e Hthrow.
    destruct (Hpre e Hthrow) as [_ Hall].
    apply Hall, prelude_call_kind in Hev as (Hf & _). congruence.
  - intros payload (Hdec & us & bes & info & Hv & Ha & _) e Hthrow.
    pose proof (sync_run_shape this intents fuel store) as H.
    destruct (run_sync this intents fuel store) as [o fin].
    cbn [fst snd] in *.
    sync_cases H; try done; congruence.
Qed.

(** X9.  The deletion comes before the validation of the corpus: when
    the model is out of date and a label is rejected, the run ends with
    the error thrown after it has deleted a truthy remote version, and
    it makes no further request. *)
Theorem rejected_label_after_delete intents fuel store e :
  decision this intents store = Ret false →
  buildUtterances this intents = Err e →
  (run_sync this intents fuel store).1 = Throw e ∧
  trace (run_sync this intents fuel store).2 =
    [{| call := GetVersions; ok := answered (versions (service this) 0) |};
     {| call := KvsGet LUIS_HASH_KVS_KEY; ok := true |}] ++
    (if truthy (remoteVersion this 0)
     then [{| call := DeleteVersion; ok := answered (delete_ (service this)) |}]
     else []).
Proof.
  intros Hdec Herr.
  assert (∀ body, ¬ imports this intents store body) as Hno.
  { intros body (_ & us & bes & info & Hval & _). congruence. }
  pose proof (sync_run_shape this intents fuel store) as H.
  destruct (run_sync this intents fuel store) as [o fin]. cbn [fst snd] in *.
  sync_cases H; try congruence; try (by apply Hno in Ri);
    try (destruct Ri as [Ri _]; by apply Hno in Ri).
  split; [congruence | done].
Qed.

End Deletion_and_errors.

(** ** The payload *)

Section Payload_lemmas.
Context {EntityDeclaration : Type} (this : LuisProvider EntityDeclaration).

Lemma checkLabel_Val label n :
  checkLabel this label = Val n ↔
  ∃ e, Entities this !! type label = Some e ∧
       String.prefix "@native." (type label) = true ∧
       luis e = Some n ∧ n ≠ "".
Proof.
  split.
  - unfold checkLabel.
    destruct (Entities this !! type label) as [e|]; [|discriminate].
    destruct (String.prefix "@native." (type label)); [|discriminate].
    destruct (luis e) as [l|] eqn:El; [|discriminate].
    destruct l as [|c l]; [discriminate|]. simpl.
    intros [= <-]. by exists e.
  - intros (e & He & Hp & Hl & Hn). unfold checkLabel.
    rewrite He, Hp, Hl. simpl. by destruct n.
Qed.

Lemma checkLabel_accepted label :
  (∃ n, checkLabel this label = Val n) ↔ accepted this label.
Proof.
  unfold accepted. split.
  - intros [n (e & ?)%checkLabel_Val]. by exists e, n.
  - intros (e & n & ?). exists n. apply checkLabel_Val. by exists e.
Qed.

Lemma firstRejection_None ls :
  firstRejection this ls = None ↔ Forall (accepted this) ls.
Proof.
  induction ls as [|l ls IH]; simpl; [split; [by constructor | done]|].
  rewrite Forall_cons, <- IH, <- checkLabel_accepted.
  destruct (checkLabel this l) as [n|e]; split; try done.
  - intros H. split; [by exists n | done].
  - by intros [_ ?].
  - by intros [[n ?] _].
Qed.

Lemma forEach_onLabel_spans ls bes bes' ents' :
  forEach (onLabel this) ls (bes, []) = Val (bes', ents') →
  Forall2 (span_of this) ents' ls.
Proof.
  intros H.
  apply (forEach_inv_prefix (onLabel this)
           (λ pre s, Forall2 (span_of this) s.2 pre) ls)
    with (pre := []) (s := (bes, [])) (s' := (bes', ents')); [|done|done].
  intros pre x [b e] [b' e'] Hpre. rewrite onLabel_checkLabel. simpl in *.
  destruct (checkLabel this x) as [l|] eqn:E; simpl; [|done].
  intros [= <- <-]. apply Forall2_app; [done|].
  apply checkLabel_Val in E as (en & ? & _ & ? & _).
  constructor; [|constructor]. split; [by exists en | done].
Qed.

Lemma onUtterance_mirror i u xs us bes us' bes' :
  Forall2 (utterance_of this) us xs →
  onUtterance this i u (us, bes) = Val (us', bes') →
  Forall2 (utterance_of this) us'
    (xs ++ [(i, extractLabelsFromCanonical this u (entities i))]).
Proof.
  intros Hxs. unfold onUtterance.
  destruct (forEach (onLabel this) _ (bes, [])) as [[b e]|] eqn:E; simpl;
    [|done].
  intros [= <- <-]. apply Forall2_app; [done|].
  constructor; [|constructor]. split; [done|]. split; [done|]. simpl.
  by eapply forEach_onLabel_spans.
Qed.

Lemma buildUtterances_mirror intents us bes :
  buildUtterances this intents = Val (us, bes) →
  Forall2 (utterance_of this) us (corpusUtterances this intents).
Proof.
  unfold buildUtterances. intros H.
  apply (forEach_inv_prefix (onIntent this)
           (λ pre s, Forall2 (utterance_of this) s.1
                       (corpusUtterances this pre)) intents)
    with (pre := []) (s := ([], [])) (s' := (us, bes));
    [|by constructor|done].
  clear. intros pre i s s' Hpre Hi. unfold onIntent in Hi.
  unfold corpusUtterances. rewrite bind_app. simpl. rewrite app_nil_r.
  apply (forEach_inv_prefix (onUtterance this i)
           (λ p t, Forall2 (utterance_of this) t.1
                     (corpusUtterances this pre ++
                      (p ≫= λ u, [(i, extractLabelsFromCanonical this u
                                        (entities i))]))) (utterances i))
    with (pre := []) (s := s) (s' := s'); [|by rewrite app_nil_r|done].
  clear. intros p u [a b] [a' b'] Hp Hu. simpl in *.
  rewrite bind_app. simpl. rewrite app_assoc.
  by eapply onUtterance_mirror.
Qed.

End Payload_lemmas.

Section Payload.
Context {EntityDeclaration : Type} (this : LuisProvider EntityDeclaration).

(** X10.  Acceptance of a corpus: the utterances can be built exactly
    when every label of the corpus has a type that is in the entity
    table, starts with [@native.] and has a provider name.  Otherwise
    the error names the first label of the traversal that is not
    accepted: unknown entity when its type is not in the table or has
    not the prefix, unsupported entity when only the provider name is
    missing. *)
Theorem construction_succeeds_iff intents :
  ((∃ r, buildUtterances this intents = Val r) ↔
   Forall (accepted this) (corpusLabels this intents)) ∧
  ∀ pre label post,
    corpusLabels this intents = pre ++ label :: post →
    Forall (accepted this) pre →
    (Entities this !! type label = None ∨
     String.prefix "@native." (type label) = false →
     buildUtterances this intents = Err (unknown_entity (type label))) ∧
    (∀ en, Entities this !! type label = Some en →
           String.prefix "@native." (type label) = true →
           luis en = None ∨ luis en = Some "" →
           buildUtterances this intents = Err (unsupported_entity (type label))).
Proof.
  pose proof (buildUtterances_outcome this intents) as H. split.
  - rewrite <- firstRejection_None.
    destruct (firstRejection this (corpusLabels this intents)) as [e|].
    + rewrite H. split; [by intros [r ?] | done].
    + done.
  - intros pre label post Heq Hpre.
    assert (Forall (λ l, ∃ n, checkLabel this l = Val n) pre) as Hpre'.
    { eapply Forall_impl; [exact Hpre|]. intros l. by rewrite checkLabel_accepted. }
    rewrite Heq in H. split.
    + intros Hbad.
      assert (checkLabel this label = Err (unknown_entity (type label))) as Hc.
      { unfold checkLabel. destruct Hbad as [-> | Hp]; [done|].
        destruct (Entities this !! type label); by rewrite ?Hp. }
      by rewrite (firstRejection_first this pre label post _ Hpre' Hc) in H.
    + intros en Hen Hp Hl.
      assert (checkLabel this label = Err (unsupported_entity (type label)))
        as Hc.
      { unfold checkLabel. rewrite Hen, Hp. simpl. by destruct Hl as [-> | ->]. }
      by rewrite (firstRejection_first this pre label post _ Hpre' Hc) in H.
Qed.

(** X11.  The payload of an import mirrors the corpus: one utterance per
    utterance of the corpus, in order, with the text that the parser
    returns, the name of its intent, and one span per label with the
    provider name of its entity and the offsets of the label.  The
    intents are the names of the intents of the corpus, the descriptive
    fields are those of the application, and the other lists are
    empty. *)
Theorem payload_mirrors_corpus intents fuel store body b :
  {| call := ImportVersion body; ok := b |}
    ∈ trace (run_sync this intents fuel store).2 →
  Forall2 (utterance_of this) (b_utterances body)
    (corpusUtterances this intents) ∧
  b_intents body = name <$> intents ∧
  (∃ info, appInfo (service this) = Response info ∧
           b_name body = app_name info ∧ desc body = description info ∧
           culture body = app_culture info) ∧
  luis_schema_version body = "2.1.0" ∧ versionId body = "1.0" ∧
  b_entities body = [] ∧ composites body = [] ∧ closedLists body = [] ∧
  model_features body = [] ∧ regex_features body = [].
Proof.
  intros Hev.
  destruct (sync_requests this intents fuel store _ Hev)
    as [H|[(body' & Himp & Hc)|[H|[t [=]]]]].
  { by apply prelude_call_kind in H as (? & _). }
  2:{ by apply (training_call_kind this) in H as (? & _). }
  simpl in Hc. injection Hc as ->.
  destruct Himp as (_ & us & bes & info & Hval & Ha & ->). simpl.
  split; [by eapply buildUtterances_mirror|]. split; [done|].
  split; [by exists info|]. done.
Qed.

End Payload.

(** ** The poll loop *)

Lemma replicate_cons_app {A} n (x : A) l :
  replicate n x ++ x :: l = x :: replicate n x ++ l.
Proof. induction n as [|n IH]; simpl; [done|]. by rewrite IH. Qed.

Section Loop.
Context {EntityDeclaration : Type} (this : LuisProvider EntityDeclaration).

(** The loop goes through the iterations that continue. *)
Lemma pollLoop_continue n : ∀ fuel i st,
  (∀ j s, j < n → (poll this (i + j) s).1 = Ret Continue) →
  ∃ st', kvs st' = kvs st ∧
         trace st' = trace st ++
                     replicate n {| call := PollTraining; ok := true |} ∧
         pollLoop this (n + fuel) i st = pollLoop this fuel (i + n) st'.
Proof.
  induction n as [|n IH]; intros fuel i st Hc.
  - exists st. rewrite app_nil_r, Nat.add_0_r. done.
  - destruct (poll_run this i st) as (Hk & b & Ht & Hb).
    specialize (Hc 0 st) as Hc0. rewrite Nat.add_0_r in Hc0.
    specialize (Hc0 ltac:(lia)).
    destruct (IH fuel (S i) (poll this i st).2) as (st' & Hk' & Ht' & Heq).
    { intros j s Hj. replace (S i + j) with (i + S j) by lia.
      apply Hc. lia. }
    exists st'. split; [congruence|]. split.
    + rewrite Ht', Ht, (Hb Continue Hc0), <- app_assoc. done.
    + replace (i + S n) with (S i + n) by lia. rewrite <- Heq. simpl.
      unfold bind. destruct (poll this i st) as [o s1]. simpl in *.
      by rewrite Hc0.
Qed.

End Loop.

Section Training_runs.
Context {EntityDeclaration : Type} (this : LuisProvider EntityDeclaration).

(** X12.  An iteration of the poll loop goes on exactly when the poll is
    answered with models that all have [details], none with the
    [status] property [Fail], and the list is empty or has a model in
    progress; it takes the success exit exactly when the list is not
    empty and no model is in progress. *)
Theorem poll_outcome_table i st :
  ((poll this i st).1 = Ret Continue ↔
   ∃ models, trainStatus (service this) i = Response models ∧
             Forall (λ m, is_Some (details m)) models ∧
             Forall (λ m, ¬ failed m) models ∧
             (models = [] ∨ Exists in_progress models)) ∧
  ((poll this i st).1 = Ret Break ↔
   ∃ models, trainStatus (service this) i = Response models ∧
             Forall (λ m, is_Some (details m)) models ∧
             Forall (λ m, ¬ failed m) models ∧
             models ≠ [] ∧ Forall (λ m, ¬ in_progress m) models).
Proof.
  unfold poll, bind, request, lift, ret, throw, logger.
  destruct (trainStatus (service this) i) as [models|err]; simpl;
    [|split; split; [done | by intros (? & ? & _) | done | by intros (? & ? & _)]].
  pose proof (filterInProgress_Val models) as Hval.
  destruct (filterInProgress models) as [inProgress|err] eqn:Ef; simpl.
  2:{ assert (¬ Forall (λ m, is_Some (details m)) models) as Hn.
      { intros H. apply Hval in H as [l ?]. done. }
      split; split; try done; by intros (? & [= <-] & ? & _). }
  assert (Forall (λ m, is_Some (details m)) models) as Hd
    by (apply Hval; by eexists).
  pose proof (filterInProgress_nil models inProgress Ef) as Hnil.
  pose proof (findFail_None models) as Hfail.
  destruct (findFail models) as [m|] eqn:Em.
  { assert (¬ Forall (λ m, ¬ failed m) models) as Hn.
    { intros H. by apply Hfail in H. }
    destruct (details m); split; split; try done;
      by intros (? & [= <-] & _ & ? & _). }
  assert (Forall (λ m, ¬ failed m) models) as Hnf by (by apply Hfail).
  pose proof (ge1_ratio (length models) (length inProgress)) as Hge.
  destruct (ge1 _) eqn:Eg; simpl.
  - destruct Hge as [[Hne Hz] _]; [done|].
    assert (inProgress = []) as -> by (by destruct inProgress).
    split; split; try done.
    + intros (ms & [= <-] & _ & _ & [->|Hex]); [done|].
      apply Exists_exists in Hex as (x & Hx & Hp).
      destruct Hnil as [Hnil _]. specialize (Hnil eq_refl).
      by eapply Forall_forall in Hnil.
    + intros _. exists models. repeat split; try done.
      * by intros ->.
      * by apply Hnil.
  - split; split; try done.
    + intros _. exists models. repeat split; try done.
      destruct models as [|m ms]; [by left|right].
      destruct inProgress as [|x l].
      { assert (false = true) by (by apply Hge). done. }
      apply Exists_exists. exists x.
      apply (filterInProgress_elem _ _ x Ef), elem_of_cons. by left.
    + intros (ms & [= <-] & _ & _ & Hne & Hall). apply Hnil in Hall as ->.
      assert (false = true) as Habs; [|done].
      apply Hge. split; [by destruct models|done].
Qed.

(** X13.  Training to the end: when the training is queued, the first
    [n] polls go on, the next one takes the success exit and the
    publish request is answered, [train] returns for every fuel above
    [n].  It has made the training request, [n + 1] polls and the
    publish request, for the staging slot unless [isProduction] is set,
    and has left the store alone. *)
Theorem train_returns_after_last_poll res n fuel st :
  trainStart (service this) = Response res →
  ts_status res = Some "Queued" →
  (∀ j s, j < n → (poll this j s).1 = Ret Continue) →
  (∀ s, (poll this n s).1 = Ret Break) →
  publish (service this) = Response tt →
  n < fuel →
  (train this fuel st).1 = Ret tt ∧
  kvs (train this fuel st).2 = kvs st ∧
  trace (train this fuel st).2 =
    trace st ++ [{| call := StartTraining; ok := true |}] ++
    replicate (S n) {| call := PollTraining; ok := true |} ++
    [{| call := Publish (negb (isProduction this)); ok := true |}].
Proof.
  intros Hstart Hq Hcont Hbreak Hpub Hfuel.
  unfold train, request, bind. rewrite Hstart, Hq. simpl.
  set (s0 := emit _ st).
  destruct (pollLoop_continue this n (fuel - n) 0 s0) as (s1 & Hk1 & Ht1 & Heq);
    [done|].
  replace (n + (fuel - n)) with fuel in Heq by lia.
  rewrite Heq.
  destruct (fuel - n) as [|f] eqn:Ef; [lia|]. simpl. unfold bind.
  destruct (poll_run this n s1) as (Hk2 & b & Ht2 & Hb).
  specialize (Hbreak s1).
  destruct (poll this n s1) as [o s2]. simpl in *. subst o.
  specialize (Hb Break eq_refl) as ->. unfold ret.
  rewrite Hpub. simpl.
  split; [done|]. split; [congruence|].
  rewrite Ht2, Ht1. simpl.
  rewrite <- !app_assoc. simpl. by rewrite replicate_cons_app.
Qed.

(** X14.  A failed model stops the training: when the training is
    queued, the first [n] polls go on and the next one is answered with
    models that all have [details], [train] throws for every fuel above
    [n] the training error that names the first model whose [status]
    property is [Fail] and its failure reason.  It has made the training
    request and [n + 1] polls, and no publish request. *)
Theorem train_throws_on_failed_model res n fuel st pre m post d :
  trainStart (service this) = Response res →
  ts_status res = Some "Queued" →
  (∀ j s, j < n → (poll this j s).1 = Ret Continue) →
  trainStatus (service this) n = Response (pre ++ m :: post) →
  Forall (λ x, is_Some (details x)) (pre ++ m :: post) →
  Forall (λ x, ¬ failed x) pre → failed m → details m = Some d →
  n < fuel →
  (train this fuel st).1 =
    Throw (new_Error ("[NLU::Luis] Error training model " +:+ dquote
                      +:+ modelId m +:+ dquote +:+ ", reason is " +:+ dquote
                      +:+ str (failureReason d) +:+ dquote)) ∧
  kvs (train this fuel st).2 = kvs st ∧
  trace (train this fuel st).2 =
    trace st ++ [{| call := StartTraining; ok := true |}] ++
    replicate (S n) {| call := PollTraining; ok := true |}.
Proof.
  intros Hstart Hq Hcont Hn Hd Hpre Hm Hdm Hfuel.
  apply filterInProgress_Val in Hd as [inProgress Hip].
  pose proof (findFail_first pre m post Hm Hpre) as Hfind.
  unfold train, request, bind. rewrite Hstart, Hq. simpl.
  set (s0 := emit _ st).
  destruct (pollLoop_continue this n (fuel - n) 0 s0) as (s1 & Hk1 & Ht1 & Heq);
    [done|].
  replace (n + (fuel - n)) with fuel in Heq by lia.
  rewrite Heq.
  destruct (fuel - n) as [|f] eqn:Ef; [lia|]. simpl. unfold bind.
  rewrite (poll_status_Fail this n _ inProgress m d s1 Hn Hip Hfind Hdm).
  simpl. split; [done|]. split; [done|]. rewrite Ht1. simpl.
  rewrite <- !app_assoc. simpl. by rewrite replicate_cons_app, app_nil_r.
Qed.

(** X15.  Errors of the import and of the training are caught: when the
    import is rejected, or is answered and [train] throws (a rejected
    request, a training that is not queued, a failed model, a model
    without [details]), the run ends normally and the store is as
    before, whatever the error.  The last log line is at the error
    level and ends with the structured detail of the error, or with
    [undefined] when the error has none. *)
Theorem submission_errors_are_caught intents fuel store payload failure :
  imports this intents store payload →
  (import_ (service this) payload = Rejected failure ∨
   (∃ answer, import_ (service this) payload = Response answer) ∧
   (train this fuel (initial store)).1 = Throw failure) →
  (run_sync this intents fuel store).1 = Ret tt ∧
  kvs (run_sync this intents fuel store).2 = store ∧
  (∀ ev, ev ∈ trace (run_sync this intents fuel store).2 →
         is_KvsSet ev = false) ∧
  last (log (run_sync this intents fuel store).2) =
    Some {| level := Error;
            msg := "[NLU::Luis] Could not sync the model. Error = "
                   +:+ str (response_detail failure) |}.
Proof.
  intros Himp Hfail.
  assert (sync_error_message failure =
          "[NLU::Luis] Could not sync the model. Error = "
          +:+ str (response_detail failure)) as Hmsg by done.
  assert (∀ ev, ev ∈ trace (run_sync this intents fuel store).2 →
                is_KvsSet ev = false) as Hset.
  { destruct (sync_store this intents fuel store)
      as [[_ Hno]|(_ & s0 & body & result & t & Hi & Htr & _)]; [done|].
    exfalso. destruct Hi as (Hi & Hok & _).
    pose proof (imports_unique this _ _ _ _ Himp Hi) as <-.
    destruct Hfail as [Hrej|[_ Hthrow]]; [congruence|].
    rewrite (train_outcome this fuel _ s0) in Hthrow. congruence. }
  revert Hset.
  pose proof (sync_run_shape this intents fuel store) as H.
  destruct (run_sync this intents fuel store) as [o fin]. cbn [fst snd] in *.
  intros Hset.
  pose proof Himp as (Hdec & us & bes & info & Hv & Ha & _).
  sync_cases H; try congruence.
  - pose proof (imports_unique this _ _ _ _ Himp Ri) as <-.
    destruct Hfail as [Hrej|[[answer Hres] _]]; [|congruence].
    split; [done|]. split; [done|]. split; [done|]. congruence.
  - destruct Ri as (Ri & Rok & _).
    pose proof (imports_unique this _ _ _ _ Himp Ri) as <-.
    destruct Hfail as [Hrej|[_ Hthrow]]; [congruence|].
    rewrite (train_outcome this fuel _ s0) in Hthrow.
    split; [done|]. split; [done|]. split; [done|]. congruence.
  - destruct Ri as (Ri & Rok & _).
    pose proof (imports_unique this _ _ _ _ Himp Ri) as <-.
    destruct Hfail as [Hrej|[_ Hthrow]]; [congruence|].
    rewrite (train_outcome this fuel _ s0) in Hthrow. congruence.
  - destruct Ri as (Ri & Rok & _).
    pose proof (imports_unique this _ _ _ _ Himp Ri) as <-.
    destruct Hfail as [Hrej|[_ Hthrow]]; [congruence|].
    rewrite (train_outcome this fuel _ s0) in Hthrow. congruence.
  - destruct Ri as (Ri & Rok & _).
    pose proof (imports_unique this _ _ _ _ Himp Ri) as <-.
    destruct Hfail as [Hrej|[_ Hthrow]]; [congruence|].
    rewrite (train_outcome this fuel _ s0) in Hthrow. congruence.
Qed.

(** X16.  The version lookup: [getRemoteVersion] makes one request,
    never throws and leaves the store alone.  From an answered request
    it returns the first element of the list whose version is [1.0],
    and [undefined] exactly when the list has none, and logs nothing.
    From a rejected request it returns the empty array, whatever the
    error, after one line at the debug level. *)
Theorem getRemoteVersion_first_match k st :
  (∃ v, (getRemoteVersion this k st).1 = Ret v) ∧
  kvs (getRemoteVersion this k st).2 = kvs st ∧
  trace (getRemoteVersion this k st).2 =
    trace st ++
    [{| call := GetVersions; ok := answered (versions (service this) k) |}] ∧
  (∀ err, versions (service this) k = Rejected err →
     (getRemoteVersion this k st).1 = Ret EmptyArray ∧
     log (getRemoteVersion this k st).2 =
       log st ++ [{| level := Debug;
                     msg := "[NLU::Luis] Could not fetch app versions" |}]) ∧
  ∀ vs, versions (service this) k = Response vs →
    log (getRemoteVersion this k st).2 = log st ∧
    (getRemoteVersion this k st).1 ≠ Ret EmptyArray ∧
    (∀ v, (getRemoteVersion this k st).1 = Ret (Found v) ↔
          ∃ pre post, vs = pre ++ v :: post ∧ version v = LUIS_APP_VERSION ∧
                      Forall (λ x, version x ≠ LUIS_APP_VERSION) pre) ∧
    ((getRemoteVersion this k st).1 = Ret Undefined ↔
     Forall (λ x, version x ≠ LUIS_APP_VERSION) vs).
Proof.
  split; [|split; [|split; [|split]]].
  - destruct (getRemoteVersion_step this k st) as (s1 & -> & _). by eexists.
  - by destruct (getRemoteVersion_step this k st) as (s1 & -> & Hk & _).
  - by destruct (getRemoteVersion_step this k st) as (s1 & -> & _ & Ht & _).
  - intros err Herr.
    unfold getRemoteVersion, try_catch, bind, request, logger, ret.
    by rewrite Herr.
  - intros vs Hvs. split; [|split].
    { unfold getRemoteVersion, try_catch, bind, request, logger, ret.
      by rewrite Hvs. }
    { unfold getRemoteVersion, try_catch, bind, request, logger, ret.
      rewrite Hvs. simpl. unfold find_version. by destruct (find _ vs). }
    destruct (getRemoteVersion_step this k st) as (s1 & -> & _). simpl.
    unfold remoteVersion, find_version. rewrite Hvs. clear.
    induction vs as [|x vs [IHf IHu]]; simpl.
    + split; [|split; [by constructor | done]].
      intros v. split; [done|]. intros (pre & post & Heq & _).
      by destruct pre.
    + case_bool_decide as Hx.
      * split.
        -- intros v. split.
           ++ intros [= <-]. exists [], vs. by repeat split.
           ++ intros ([|y pre] & post & Heq & Hv & Hpre); simplify_eq/=;
                [done|].
              by apply Forall_cons in Hpre as [? _].
        -- split; [done|]. by intros [? _]%Forall_cons.
      * split.
        -- intros v. rewrite IHf. split.
           ++ intros (pre & post & -> & Hv & Hpre). exists (x :: pre), post.
              split; [done|]. split; [done|]. by constructor.
           ++ intros ([|y pre] & post & Heq & Hv & Hpre); simplify_eq/=.
              exists pre, post. apply Forall_cons in Hpre as [_ ?]. done.
        -- rewrite IHu, Forall_cons. split; [by split | by intros [_ ?]].
Qed.

End Training_runs.

(** ** The further statements on the small bot *)

Lemma up_to_date_run_reads_only_witness :
  (run_sync (ex_provider ex_synced) ex_greet 3 ex_store).1 = Ret tt ∧
  kvs (run_sync (ex_provider ex_synced) ex_greet 3 ex_store).2 = ex_store ∧
  trace (run_sync (ex_provider ex_synced) ex_greet 3 ex_store).2 =
    [{| call := GetVersions; ok := true |};
     {| call := KvsGet LUIS_HASH_KVS_KEY; ok := true |}].
Proof.
  destruct (up_to_date_run_reads_only (ex_provider ex_synced) ex_greet 3
              ex_store
              {| hash := ex_digest ex_greet; time := Some "2018-01-01" |}
              (Some "2018-01-01"))
    as (H1 & H2 & H3 & _); [by vm_compute | reflexivity | reflexivity
                           | reflexivity |].
  split; [exact H1|]. split; [exact H2 | exact H3].
Defined.

Lemma recorded_fingerprint_is_up_to_date_witness :
  (run_sync (ex_provider ex_synced) ex_greet 3
     (kvs (run_sync (ex_provider ex_service) ex_greet 5 ∅).2)).1 = Ret tt ∧
  trace (run_sync (ex_provider ex_synced) ex_greet 3
           (kvs (run_sync (ex_provider ex_service) ex_greet 5 ∅).2)).2 =
    [{| call := GetVersions; ok := true |};
     {| call := KvsGet LUIS_HASH_KVS_KEY; ok := true |}].
Proof.
  destruct (recorded_fingerprint_is_up_to_date (ex_provider ex_service)
              ex_greet 5 ∅ (ex_provider ex_synced) 3) as (H1 & _ & H3).
  - exists {| call := KvsSet LUIS_HASH_KVS_KEY
                        {| hash := ex_digest ex_greet;
                           time := Some "2018-01-01" |};
              ok := true |}.
    split; [vm_compute; elem_of_list | reflexivity].
  - reflexivity.
  - reflexivity.
  - split; [exact H1 | exact H3].
Defined.

Lemma fingerprint_holds_reread_timestamp_witness :
  kvs (run_sync (ex_provider ex_reread_rejected) ex_greet 5 ∅).2
    !! LUIS_HASH_KVS_KEY =
  Some {| hash := ex_digest ex_greet; time := None |}.
Proof.
  destruct (fingerprint_holds_reread_timestamp
              (ex_provider ex_reread_rejected) ex_greet 5 ∅)
    as (t & Hk & _ & Hr & _).
  - exists {| call := KvsSet LUIS_HASH_KVS_KEY
                        {| hash := ex_digest ex_greet; time := None |};
              ok := true |}.
    split; [vm_compute; elem_of_list | reflexivity].
  - rewrite Hk. f_equal. f_equal.
    exact (Hr (new_Error "Network Error") eq_refl).
Defined.

Lemma other_keys_untouched_witness :
  kvs (run_sync (ex_provider ex_service) ex_greet 5
         {[ "other" := {| hash := "h"; time := None |} ]}).2 !! "other" =
  Some {| hash := "h"; time := None |}.
Proof.
  rewrite (other_keys_untouched (ex_provider ex_service) ex_greet 5
             {[ "other" := {| hash := "h"; time := None |} ]} "other");
    [by vm_compute | discriminate].
Defined.

Lemma store_written_once_after_train_returns_witness :
  (run_sync (ex_provider ex_service) ex_greet 5 ∅).1 = Ret tt ∧
  {| call := StartTraining; ok := true |}
    ∈ trace (run_sync (ex_provider ex_service) ex_greet 5 ∅).2 ∧
  {| call := Publish true; ok := true |}
    ∈ trace (run_sync (ex_provider ex_service) ex_greet 5 ∅).2.
Proof.
  destruct (store_written_once_after_train_returns (ex_provider ex_service)
              ex_greet 5 ∅) as (_ & H & _).
  destruct H as (Hr & _ & _ & Hs & Hp & _).
  - left.
    exists {| call := KvsSet LUIS_HASH_KVS_KEY
                        {| hash := ex_digest ex_greet;
                           time := Some "2018-01-01" |};
              ok := true |}.
    split; [vm_compute; elem_of_list | reflexivity].
  - split; [exact Hr|]. split; [exact Hs | exact Hp].
Defined.

Lemma app_not_found_aborts_witness :
  (run_sync (ex_provider ex_app_missing) ex_greet 3 ∅).1 =
    Throw (new_Error "[NLU::Luis] Could not find app app") ∧
  trace (run_sync (ex_provider ex_app_missing) ex_greet 3 ∅).2 =
    [{| call := GetVersions; ok := true |};
     {| call := KvsGet LUIS_HASH_KVS_KEY; ok := true |};
     {| call := DeleteVersion; ok := false |};
     {| call := GetAppInfo; ok := false |}].
Proof.
  destruct (app_not_found_aborts (ex_provider ex_app_missing) ex_greet 3 ∅
              (b_utterances ex_greet_body, [])
              (new_Error "Request failed with status code 404"))
    as (H1 & _ & H3); [by vm_compute | by vm_compute | reflexivity |].
  split; [exact H1 | exact H3].
Defined.

Lemma thrown_errors_precede_import_witness :
  kvs (run_sync (ex_provider ex_service) ex_call 3 ∅).2 = ∅ ∧
  (∀ e, (run_sync (ex_provider ex_import_rejected) ex_greet 3 ∅).1 ≠ Throw e).
Proof.
  destruct (thrown_errors_precede_import (ex_provider ex_service) ex_call 3 ∅)
    as (H & _).
  destruct (H (unknown_entity "@native.person")) as (Hk & _);
    [by vm_compute|].
  split; [exact Hk|].
  destruct (thrown_errors_precede_import (ex_provider ex_import_rejected)
              ex_greet 3 ∅) as (_ & _ & H').
  apply (H' ex_greet_body).
  split; [by vm_compute|]. eexists _, _, ex_info.
  split; [by vm_compute|]. split; reflexivity.
Defined.

Lemma rejected_label_after_delete_witness :
  (run_sync (ex_provider ex_synced) ex_call 3 ∅).1 =
    Throw (unknown_entity "@native.person") ∧
  trace (run_sync (ex_provider ex_synced) ex_call 3 ∅).2 =
    [{| call := GetVersions; ok := true |};
     {| call := KvsGet LUIS_HASH_KVS_KEY; ok := true |};
     {| call := DeleteVersion; ok := true |}].
Proof.
  apply (rejected_label_after_delete (ex_provider ex_synced) ex_call 3 ∅
           (unknown_entity "@native.person")); by vm_compute.
Defined.

Lemma payload_mirrors_corpus_witness :
  Forall2 (utterance_of (ex_provider ex_service))
    (b_utterances ex_contact_body)
    (corpusUtterances (ex_provider ex_service) ex_contact) ∧
  b_intents ex_contact_body = ["greet"; "contact"].
Proof.
  destruct (payload_mirrors_corpus (ex_provider ex_service) ex_contact 5 ∅
              ex_contact_body true) as (H1 & H2 & _).
  - vm_compute. elem_of_list.
  - split; [exact H1 | exact H2].
Defined.

Lemma train_returns_after_last_poll_witness :
  (train (ex_provider ex_service) 5 (initial ∅)).1 = Ret tt ∧
  trace (train (ex_provider ex_service) 5 (initial ∅)).2 =
    [{| call := StartTraining; ok := true |};
     {| call := PollTraining; ok := true |};
     {| call := PollTraining; ok := true |};
     {| call := PollTraining; ok := true |};
     {| call := Publish true; ok := true |}].
Proof.
  destruct (train_returns_after_last_poll (ex_provider ex_service)
              {| ts_status := Some "Queued" |} 2 5 (initial ∅))
    as (H1 & _ & H3); try reflexivity.
  - intros [|[|j]] s Hj; [reflexivity | reflexivity | lia].
  - lia.
  - split; [exact H1 | exact H3].
Defined.

Lemma train_throws_on_failed_model_witness :
  (train (ex_provider ex_status_fails) 5 (initial ∅)).1 =
    Throw (new_Error ("[NLU::Luis] Error training model " +:+ dquote +:+ "m2"
                      +:+ dquote +:+ ", reason is " +:+ dquote
                      +:+ "no examples" +:+ dquote)) ∧
  trace (train (ex_provider ex_status_fails) 5 (initial ∅)).2 =
    [{| call := StartTraining; ok := true |};
     {| call := PollTraining; ok := true |};
     {| call := PollTraining; ok := true |}].
Proof.
  destruct (train_throws_on_failed_model (ex_provider ex_status_fails)
              {| ts_status := Some "Queued" |} 1 5 (initial ∅)
              [ex_model "Success" None]
              {| modelId := "m2"; status := Some "Fail";
                 details := Some {| d_status := Some "Fail";
                                    failureReason := Some "no examples" |} |}
              []
              {| d_status := Some "Fail";
                 failureReason := Some "no examples" |})
    as (H1 & _ & H3); try reflexivity.
  - intros [|j] s Hj; [reflexivity | lia].
  - repeat constructor; by eexists.
  - repeat constructor. discriminate.
  - lia.
  - split; [exact H1 | exact H3].
Defined.

Lemma submission_errors_are_caught_witness :
  (run_sync (ex_provider ex_publish_rejected) ex_greet 5 ∅).1 = Ret tt ∧
  last (log (run_sync (ex_provider ex_publish_rejected) ex_greet 5 ∅).2) =
    Some {| level := Error;
            msg := "[NLU::Luis] Could not sync the model. Error = Rate limit is exceeded" |}.
Proof.
  destruct (submission_errors_are_caught (ex_provider ex_publish_rejected)
              ex_greet 5 ∅ ex_greet_body
              {| message := "Request failed with status code 429";
                 response_detail := Some "Rate limit is exceeded" |})
    as (H1 & _ & _ & H3).
  - split; [by vm_compute|]. eexists _, _, ex_info.
    split; [by vm_compute|]. split; reflexivity.
  - right. split; [by exists "1.0" | by vm_compute].
  - split; [exact H1 | exact H3].
Defined.
